(** * Mailbox-record normalisation (extract-important-info.py)

    A shallow embedding of the script that cleans a mailbox export and
    expands it into one row per external contact, together with the
    properties of it that the specification states.

    Conventions of the embedding.
    - A Python [str] is a Rocq [string]; a character is read as the code
      point of the same number (U+0000 .. U+00FF), and the character tables
      below ([\w], [str.isspace], [str.isdigit], [str.lower]) are the ones
      Python uses on that range.
    - A table cell is [option string]: [None] is the missing value
      (NaN / None), the one [pd.isnull] answers [True] on.
    - A computation that may raise is a value of [result A]; exceptions are
      the constructors of [exn].
    - Python integers are [Z].
    - The library functions the script calls ([re.findall],
      [email.utils.parsedate_tz], [datetime], [str] methods) are embedded
      as CPython 3.11 defines them; [email.header]'s decoder is a
      parameter of [main].
    - Of the second script, companies-api.py, the list it builds of the
      contacts file is embedded ([companies]); the request it then sends
      is outside the embedding. *)

From Stdlib Require Import Bool Arith ZArith Lia List Ascii String.
From Stdlib Require Import Numbers.DecimalString.
From Stdlib Require Numbers.DecimalPos Numbers.DecimalFacts.
Import ListNotations.

Local Open Scope string_scope.
Local Open Scope list_scope.

(** ** Exceptions and the error monad *)

Inductive exn : Type :=
| ValueError (msg : string)
| TypeError
| AttributeError
| OverflowError
| IndexError
| LookupError
| UnicodeDecodeError
| HeaderParseError.

Inductive result (A : Type) : Type :=
| Ok (a : A)
| Raise (e : exn).
Arguments Ok {A} a.
Arguments Raise {A} e.

Definition bind {A B : Type} (m : result A) (k : A -> result B) : result B :=
  match m with
  | Ok a => k a
  | Raise e => Raise e
  end.

Declare Scope result_scope.
Delimit Scope result_scope with result.
Notation "x <- m ;; k" := (bind m (fun x => k))
  (at level 61, m at next level, right associativity) : result_scope.
Local Open Scope result_scope.

(** [mapM f l]: apply [f] to the elements in order; the first exception
    stops the traversal. *)
Fixpoint mapM {A B : Type} (f : A -> result B) (l : list A) : result (list B) :=
  match l with
  | [] => Ok []
  | a :: l' => b <- f a ;; bs <- mapM f l' ;; Ok (b :: bs)
  end.

Definition cell : Type := option string.

(** ** Python string primitives *)

Module Py.

Definition code (c : ascii) : nat := nat_of_ascii c.

Definition between (lo hi : nat) (c : ascii) : bool :=
  Nat.leb lo (code c) && Nat.leb (code c) hi.

(** [str.isspace] on one character. *)
Definition isspace (c : ascii) : bool :=
  between 9 13 c || between 28 32 c || Nat.eqb (code c) 133 || Nat.eqb (code c) 160.

(** [str.isdigit] on one character (the decimal digits and the
    superscripts 1, 2, 3). *)
Definition isdigit (c : ascii) : bool :=
  between 48 57 c || Nat.eqb (code c) 178 || Nat.eqb (code c) 179 || Nat.eqb (code c) 185.

Definition isdecimal (c : ascii) : bool := between 48 57 c.

(** [str.isalnum] on one character. *)
Definition isalnum (c : ascii) : bool :=
  between 48 57 c || between 65 90 c || between 97 122 c
  || Nat.eqb (code c) 170 || Nat.eqb (code c) 178 || Nat.eqb (code c) 179
  || Nat.eqb (code c) 181 || Nat.eqb (code c) 185 || Nat.eqb (code c) 186
  || between 188 190 c || between 192 214 c || between 216 246 c
  || between 248 255 c.

(** [sub in s]. *)
Fixpoint contains (sub s : string) : bool :=
  match s with
  | EmptyString => prefix sub EmptyString
  | String _ s' => prefix sub s || contains sub s'
  end.

(** Remove the trailing characters that satisfy [p]. *)
Fixpoint rstrip_with (p : ascii -> bool) (s : string) : string :=
  match s with
  | EmptyString => EmptyString
  | String c s' =>
      match rstrip_with p s' with
      | EmptyString => if p c then EmptyString else String c EmptyString
      | r => String c r
      end
  end.

(** Remove the leading characters that satisfy [p]. *)
Fixpoint lstrip_with (p : ascii -> bool) (s : string) : string :=
  match s with
  | EmptyString => EmptyString
  | String c s' => if p c then lstrip_with p s' else s
  end.

(** [s.rstrip()]. *)
Definition rstrip (s : string) : string := rstrip_with isspace s.

(** [s.split(sep)] for a separator of one character. *)
Fixpoint split (sep : ascii) (s : string) : list string :=
  match s with
  | EmptyString => [EmptyString]
  | String c s' =>
      if Ascii.eqb c sep then EmptyString :: split sep s'
      else match split sep s' with
           | piece :: rest => String c piece :: rest
           | [] => [String c EmptyString]
           end
  end.

(** [sep.join(l)]. *)
Definition join (sep : string) (l : list string) : string := concat sep l.

(** The first [n] characters, [s[:n]]. *)
Definition take (n : nat) (s : string) : string := substring 0 n s.

(** What follows the first [n] characters, [s[n:]]. *)
Fixpoint drop (n : nat) (s : string) : string :=
  match n, s with
  | O, _ => s
  | S n', String _ s' => drop n' s'
  | S _, EmptyString => EmptyString
  end.

(** [s.split()]: the maximal runs of characters that are not white space.
    [tok] is the run being read, in reverse. *)
Fixpoint split_ws_aux (tok : list ascii) (s : string) : list string :=
  let flush := match tok with
               | [] => []
               | _ => [string_of_list_ascii (rev tok)]
               end in
  match s with
  | EmptyString => flush
  | String c s' =>
      if isspace c then flush ++ split_ws_aux [] s'
      else split_ws_aux (c :: tok) s'
  end.

Definition split_ws (s : string) : list string := split_ws_aux [] s.

(** [s.find(c)] for one character: the first index, or -1. *)
Fixpoint find (c : ascii) (s : string) : Z :=
  match s with
  | EmptyString => (-1)%Z
  | String a s' =>
      if Ascii.eqb a c then 0%Z
      else let i := find c s' in
           if (i =? -1)%Z then (-1)%Z else (i + 1)%Z
  end.

(** [s.rfind(c)] for one character: the last index, or -1. *)
Fixpoint rfind (c : ascii) (s : string) : Z :=
  match s with
  | EmptyString => (-1)%Z
  | String a s' =>
      let i := rfind c s' in
      if (i =? -1)%Z then (if Ascii.eqb a c then 0%Z else (-1)%Z)
      else (i + 1)%Z
  end.

(** [s[0]] and [s[-1]]; indexing the empty string raises. *)
Definition first_char (s : string) : result ascii :=
  match s with
  | EmptyString => Raise IndexError
  | String c _ => Ok c
  end.

Fixpoint last_char (s : string) : result ascii :=
  match s with
  | EmptyString => Raise IndexError
  | String c EmptyString => Ok c
  | String _ s' => last_char s'
  end.

(** [s[:-1]] *)
Definition drop_last (s : string) : string := take (String.length s - 1) s.

(** [s.endswith(c)] for one character. *)
Definition endswith (c : ascii) (s : string) : bool :=
  match last_char s with
  | Ok a => Ascii.eqb a c
  | Raise _ => false
  end.

Definition shift_code (c : ascii) (up : bool) : ascii :=
  ascii_of_nat (if up then code c - 32 else code c + 32).

(** [str.lower] on one character. *)
Definition lower_char (c : ascii) : ascii :=
  if between 65 90 c || between 192 214 c || between 216 222 c
  then shift_code c false else c.

(** [str.upper] on one character. Python sends three characters of the
    range out of it (U+00B5, U+00DF, U+00FF); they are left in place here:
    a string that holds one of them is, before and after, neither the
    name of a time zone nor the text of an integer, the only two things
    the upper-cased string is used for. *)
Definition upper_char (c : ascii) : ascii :=
  if between 97 122 c || between 224 246 c || between 248 254 c
  then shift_code c true else c.

Fixpoint map_chars (f : ascii -> ascii) (s : string) : string :=
  match s with
  | EmptyString => EmptyString
  | String c s' => String (f c) (map_chars f s')
  end.

Definition lower (s : string) : string := map_chars lower_char s.
Definition upper (s : string) : string := map_chars upper_char s.

(** [s in l] for a list of strings. *)
Definition mem (s : string) (l : list string) : bool :=
  existsb (String.eqb s) l.

(** [l.index(s)] *)
Fixpoint index_of (s : string) (l : list string) : result Z :=
  match l with
  | [] => Raise (ValueError "x not in list")
  | x :: l' => if String.eqb x s then Ok 0%Z
               else i <- index_of s l' ;; Ok (i + 1)%Z
  end.

(** The white space [int] strips from a string: the characters C calls
    space, and the white space beyond U+007F. *)
Definition int_space (c : ascii) : bool :=
  between 9 13 c || Nat.eqb (code c) 32 || Nat.eqb (code c) 133
  || Nat.eqb (code c) 160.

(** The digits of a decimal literal, single underscores allowed between
    them; [acc] is the value read so far and [after_digit] says whether
    the last character was a digit. *)
Fixpoint int_digits (acc : Z) (after_digit : bool) (s : string) : option Z :=
  match s with
  | EmptyString => if after_digit then Some acc else None
  | String c s' =>
      if isdecimal c
      then int_digits (10 * acc + Z.of_nat (code c - 48)) true s'
      else if Ascii.eqb c "_" && after_digit
           then match s' with
                | EmptyString => None
                | String d _ => if isdecimal d then int_digits acc false s' else None
                end
           else None
  end.

(** The interpreter refuses, by default, a literal of more than 4300
    digits ([sys.get_int_max_str_digits()]). *)
Definition max_str_digits : nat := 4300.

Fixpoint count_digits (s : string) : nat :=
  match s with
  | EmptyString => 0
  | String c s' => (if isdecimal c then 1 else 0) + count_digits s'
  end.

Definition int_literal (s : string) : option Z :=
  if Nat.ltb max_str_digits (count_digits s) then None
  else int_digits 0 false s.

(** [int(s)]: [None] stands for the [ValueError] of a string that is not
    an integer literal, or is too long a one. *)
Definition int (s : string) : option Z :=
  match rstrip_with int_space (lstrip_with int_space s) with
  | String "+" s' => int_literal s'
  | String "-" s' => option_map Z.opp (int_literal s')
  | s' => int_literal s'
  end.

(** [str(n)] for an integer. *)
Definition str_of_int (n : Z) : string := NilZero.string_of_int (Z.to_int n).

End Py.

(** ** The regular expressions of [re] that the script uses

    A pattern is a sequence of items; an item matches one character of a
    class, or one or more of them, greedily and with backtracking. *)

Module Re.

Inductive item : Type :=
| One (p : ascii -> bool)
| Many1 (p : ascii -> bool).

(** [p+] followed by the continuation [k]: take a character, then prefer
    taking more, and fall back to [k] on what is left. The result is the
    number of characters the whole match consumes. *)
Fixpoint plus (p : ascii -> bool) (k : string -> option nat) (s : string)
  : option nat :=
  match s with
  | EmptyString => None
  | String c s' =>
      if p c then
        match plus p k s' with
        | Some n => Some (S n)
        | None => option_map S (k s')
        end
      else None
  end.

(** The match of the pattern anchored at the start of [s], if any. *)
Fixpoint match_here (pat : list item) (s : string) : option nat :=
  match pat with
  | [] => Some 0
  | One p :: pat' =>
      match s with
      | EmptyString => None
      | String c s' => if p c then option_map S (match_here pat' s') else None
      end
  | Many1 p :: pat' => plus p (match_here pat') s
  end.

(** [re.findall(pat, s)] for a pattern that matches no empty string: scan
    from the left; where the pattern matches, record the match and go on
    after it; elsewhere move one character on. [skip] counts the
    characters of the last match still to be passed over. *)
Fixpoint scan (pat : list item) (skip : nat) (s : string) : list string :=
  match s with
  | EmptyString => []
  | String _ s' =>
      match skip with
      | S n => scan pat n s'
      | O =>
          match match_here pat s with
          | Some len => Py.take len s :: scan pat (pred len) s'
          | None => scan pat 0 s'
          end
      end
  end.

Definition findall (pat : list item) (s : string) : list string :=
  scan pat 0 s.

(** [\w] *)
Definition word (c : ascii) : bool := Py.isalnum c || Ascii.eqb c "_".

Definition lit (a : ascii) : ascii -> bool := Ascii.eqb a.

End Re.

(** ** extractEmails and getNonDomainEmails *)

(** [[\w.+-]] *)
Definition local_char (c : ascii) : bool :=
  Re.word c || Ascii.eqb c "." || Ascii.eqb c "+" || Ascii.eqb c "-".

(** [[\w-]] *)
Definition domain_char (c : ascii) : bool :=
  Re.word c || Ascii.eqb c "-".

(** [[\w.-]] *)
Definition tail_char (c : ascii) : bool :=
  Re.word c || Ascii.eqb c "." || Ascii.eqb c "-".

(** [r'[\w.+-]+@[\w-]+\.[\w.-]+'] *)
Definition email_pattern : list Re.item :=
  [Re.Many1 local_char; Re.One (Re.lit "@"); Re.Many1 domain_char;
   Re.One (Re.lit "."); Re.Many1 tail_char].

Definition extractEmails (emailCol : cell) : cell :=
  match emailCol with
  | None => None
  | Some s =>
      let validEmails := Re.findall email_pattern s in
      Some (Py.join ";" validEmails)
  end.

(** The loop body shared by the [To] and [Cc] branches: append the address,
    stripped on the right, unless it names the own domain. *)
Definition keep_external (combinedData : list string) (address : string)
  : list string :=
  if negb (Py.contains "insidemaps" address)
  then combinedData ++ [Py.rstrip address]
  else combinedData.

Definition getNonDomainEmails (fromData toData ccData : cell)
  : result (list string) :=
  let combinedData := [] in
  match fromData with
  | None => Raise TypeError            (* ['insidemaps' not in fromData] *)
  | Some fromData =>
      let combinedData :=
        if negb (Py.contains "insidemaps" fromData)
        then combinedData ++ [Py.rstrip fromData]
        else combinedData in
      match toData with
      | None => Raise AttributeError   (* [toData.split] *)
      | Some toData =>
          let toData := Py.split ";" toData in
          let combinedData := fold_left keep_external toData combinedData in
          match ccData with
          | None => Ok combinedData
          | Some ccData =>
              let ccData := Py.split ";" ccData in
              Ok (fold_left keep_external ccData combinedData)
          end
      end
  end.

(** ** email.utils.parsedate_tz (CPython 3.11, email/_parseaddr.py) *)

Module EmailUtils.

Definition _monthnames : list string :=
  ["jan"; "feb"; "mar"; "apr"; "may"; "jun"; "jul";
   "aug"; "sep"; "oct"; "nov"; "dec";
   "january"; "february"; "march"; "april"; "may"; "june"; "july";
   "august"; "september"; "october"; "november"; "december"].

Definition _daynames : list string :=
  ["mon"; "tue"; "wed"; "thu"; "fri"; "sat"; "sun"].

Definition _timezones : list (string * Z) :=
  [("UT", 0); ("UTC", 0); ("GMT", 0); ("Z", 0);
   ("AST", -400); ("ADT", -300);
   ("EST", -500); ("EDT", -400);
   ("CST", -600); ("CDT", -500);
   ("MST", -700); ("MDT", -600);
   ("PST", -800); ("PDT", -700)]%Z.

Fixpoint lookup (k : string) (d : list (string * Z)) : option Z :=
  match d with
  | [] => None
  | (k', v) :: d' => if String.eqb k' k then Some v else lookup k d'
  end.

(** The ten entries of the list [_parsedate_tz] returns; the last one is
    the zone offset in seconds, or [None]. *)
Record time_tuple : Type := mk_time_tuple {
  tm_year : Z; tm_mon : Z; tm_mday : Z;
  tm_hour : Z; tm_min : Z; tm_sec : Z;
  tm_wday : Z; tm_yday : Z; tm_isdst : Z;
  tm_offset : option Z
}.

Definition is_empty (s : string) : bool := String.eqb s "".

(** From [yy = int(yy)] to the end: the numbers, the century of a short
    year and the zone. *)
Definition parse_numbers (yy dd thh tmm tss tz : string) (mm : Z)
  : option time_tuple :=
  match Py.int yy, Py.int dd, Py.int thh, Py.int tmm, Py.int tss with
  | Some yy, Some dd, Some thh, Some tmm, Some tss =>
      let yy := if (yy <? 100)%Z
                then (if (68 <? yy)%Z then yy + 1900 else yy + 2000)%Z
                else yy in
      let tz := Py.upper tz in
      let tzoffset :=
        match lookup tz _timezones with
        | Some off => Some off
        | None =>
            let tzoffset := Py.int tz in
            match tzoffset with
            | Some 0%Z => if prefix "-" tz then None else tzoffset
            | _ => tzoffset
            end
        end in
      let tzoffset :=
        match tzoffset with
        | Some off =>
            if (off =? 0)%Z then Some off
            else
              let tzsign := if (off <? 0)%Z then (-1)%Z else 1%Z in
              let off := if (off <? 0)%Z then (- off)%Z else off in
              Some (tzsign * ((off / 100) * 3600 + (off mod 100) * 60))%Z
        | None => None
        end in
      Some (mk_time_tuple yy mm dd thh tmm tss 0 1 (-1) tzoffset)
  | _, _, _, _, _ => None
  end.

(** From [tm = tm.split(':')] on: the two or three parts of the time. *)
Definition parse_time (yy dd tm tz : string) (mm : Z) : option time_tuple :=
  match Py.split ":" tm with
  | [thh; tmm] => parse_numbers yy dd thh tmm "0" tz mm
  | [thh; tmm; tss] => parse_numbers yy dd thh tmm tss tz mm
  | [t0] =>
      if Py.contains "." t0 then
        match Py.split "." t0 with
        | [thh; tmm] => parse_numbers yy dd thh tmm "0" tz mm
        | [thh; tmm; tss] => parse_numbers yy dd thh tmm tss tz mm
        | _ => None
        end
      else None
  | _ => None
  end.

(** From [if not (dd and mm and yy)] to [tm = tm[:-1]]. *)
Definition parse_fields (dd mm yy tm tz : string) : result (option time_tuple) :=
  if is_empty dd || is_empty mm || is_empty yy then Ok None else
  let mm := Py.lower mm in
  let swap := negb (Py.mem mm _monthnames) in
  let dd' := if swap then mm else dd in
  let mm := if swap then Py.lower dd else mm in
  let dd := dd' in
  if negb (Py.mem mm _monthnames) then Ok None else
  mm <- Py.index_of mm _monthnames ;;
  let mm := (mm + 1)%Z in
  let mm := if (12 <? mm)%Z then (mm - 12)%Z else mm in
  c <- Py.last_char dd ;;
  let dd := if Ascii.eqb c "," then Py.drop_last dd else dd in
  let i := Py.find ":" yy in
  let yy' := if (0 <? i)%Z then tm else yy in
  let tm := if (0 <? i)%Z then yy else tm in
  let yy := yy' in
  c <- Py.last_char yy ;;
  let yy' := if Ascii.eqb c "," then Py.drop_last yy else yy in
  if Ascii.eqb c "," && is_empty yy' then Ok None else
  let yy := yy' in
  c <- Py.first_char yy ;;
  let yy' := if negb (Py.isdigit c) then tz else yy in
  let tz := if negb (Py.isdigit c) then yy else tz in
  let yy := yy' in
  c <- Py.last_char tm ;;
  let tm := if Ascii.eqb c "," then Py.drop_last tm else tm in
  Ok (parse_time yy dd tm tz mm).

(** The two regroupings of the words: an RFC 850 date in one word is cut at
    its hyphens, and a zone that sticks to the time is cut off it. *)
Definition regroup (data : list string) : list string :=
  let data :=
    match data with
    | [a; b; c] =>
        let stuff := Py.split "-" a in
        if Nat.eqb (List.length stuff) 3 then stuff ++ [b; c] else data
    | _ => data
    end in
  match data with
  | [a; b; c; s] =>
      let i := Py.find "+" s in
      let i := if (i =? -1)%Z then Py.find "-" s else i in
      if (0 <? i)%Z
      then [a; b; c; Py.take (Z.to_nat i) s; Py.drop (Z.to_nat i) s]
      else data ++ [""]
  | _ => data
  end.

Definition _parsedate_tz (data : string) : result (option time_tuple) :=
  if is_empty data then Ok None else
  let data := Py.split_ws data in
  match data with
  | [] => Ok None
  | d0 :: rest =>
      let data :=
        if Py.endswith "," d0 || Py.mem (Py.lower d0) _daynames then rest
        else
          let i := Py.rfind "," d0 in
          if (0 <=? i)%Z then Py.drop (Z.to_nat (i + 1)) d0 :: rest else data in
      match regroup data with
      | dd :: mm :: yy :: tm :: tz :: _ => parse_fields dd mm yy tm tz
      | _ => Ok None
      end
  end.

Definition parsedate_tz (data : string) : result (option time_tuple) :=
  res <- _parsedate_tz data ;;
  match res with
  | None => Ok None
  | Some res =>
      match tm_offset res with
      | None =>
          Ok (Some (mk_time_tuple (tm_year res) (tm_mon res) (tm_mday res)
                      (tm_hour res) (tm_min res) (tm_sec res)
                      (tm_wday res) (tm_yday res) (tm_isdst res) (Some 0%Z)))
      | Some _ => Ok (Some res)
      end
  end.

End EmailUtils.

(** ** datetime

    A [datetime] with no microseconds is represented by the two numbers its
    arithmetic is defined on: the proleptic Gregorian ordinal of its date
    ([toordinal()], day 1 is 0001-01-01) and the second of its day. A
    [timedelta] of whole seconds is its number of seconds. *)

Module DateTime.

Local Open Scope Z_scope.

Definition MINYEAR : Z := 1.
Definition MAXYEAR : Z := 9999.
Definition MAXORDINAL : Z := 3652059.

Definition _is_leap (year : Z) : bool :=
  (year mod 4 =? 0) && (negb (year mod 100 =? 0) || (year mod 400 =? 0)).

Definition _days_before_year (year : Z) : Z :=
  let y := year - 1 in
  y * 365 + y / 4 - y / 100 + y / 400.

Definition _DAYS_IN_MONTH : list Z :=
  [-1; 31; 28; 31; 30; 31; 30; 31; 31; 30; 31; 30; 31].

Definition _DAYS_BEFORE_MONTH : list Z :=
  [-1; 0; 31; 59; 90; 120; 151; 181; 212; 243; 273; 304; 334].

Definition _days_in_month (year month : Z) : Z :=
  if (month =? 2) && _is_leap year then 29
  else nth (Z.to_nat month) _DAYS_IN_MONTH 0.

Definition _days_before_month (year month : Z) : Z :=
  nth (Z.to_nat month) _DAYS_BEFORE_MONTH 0
  + (if (2 <? month) && _is_leap year then 1 else 0).

Definition _ymd2ord (year month day : Z) : Z :=
  _days_before_year year + _days_before_month year month + day.

Record datetime : Type := mk_datetime {
  ordinal : Z;
  second_of_day : Z
}.

(** An argument has to fit a C [int] before its range is looked at. *)
Definition c_int (n : Z) : bool := (- 2147483648 <=? n) && (n <=? 2147483647).

(** [datetime(year, month, day, hour, minute, second)] *)
Definition new (year month day hour minute second : Z) : result datetime :=
  if negb (c_int year && c_int month && c_int day
           && c_int hour && c_int minute && c_int second)
  then Raise OverflowError
  else if negb ((MINYEAR <=? year) && (year <=? MAXYEAR))
  then Raise (ValueError ("year " ++ Py.str_of_int year ++ " is out of range"))
  else if negb ((1 <=? month) && (month <=? 12))
  then Raise (ValueError "month must be in 1..12")
  else if negb ((1 <=? day) && (day <=? _days_in_month year month))
  then Raise (ValueError "day is out of range for month")
  else if negb ((0 <=? hour) && (hour <=? 23))
  then Raise (ValueError "hour must be in 0..23")
  else if negb ((0 <=? minute) && (minute <=? 59))
  then Raise (ValueError "minute must be in 0..59")
  else if negb ((0 <=? second) && (second <=? 59))
  then Raise (ValueError "second must be in 0..59")
  else Ok (mk_datetime (_ymd2ord year month day)
                       (hour * 3600 + minute * 60 + second)).

(** [timedelta(seconds=n)]: the days of the normalised value are bounded. *)
Definition timedelta (seconds : Z) : result Z :=
  let days := seconds / 86400 in
  if (-999999999 <=? days) && (days <=? 999999999)
  then Ok seconds
  else Raise OverflowError.

(** [dt - delta] *)
Definition sub (dt : datetime) (delta : Z) : result datetime :=
  let total := ordinal dt * 86400 + second_of_day dt - delta in
  let days := total / 86400 in
  if (1 <=? days) && (days <=? MAXORDINAL)
  then Ok (mk_datetime days (total mod 86400))
  else Raise OverflowError.

(** [dt.replace(tzinfo=timezone.utc).timestamp()]: the seconds from
    1970-01-01T00:00:00 UTC. Python holds the number in a float; it is a
    whole number below 2^38 in size, so the float, its product with 1000
    and the [int] of that are exact. *)
Definition utc_timestamp (dt : datetime) : Z :=
  (ordinal dt - _ymd2ord 1970 1 1) * 86400 + second_of_day dt.

End DateTime.

(** ** getDates *)

Definition getDates (dateCol : string) : result string :=
  dt_tuple <- EmailUtils.parsedate_tz dateCol ;;
  match dt_tuple with
  | None => Raise (ValueError "Invalid RFC 2822 date format")
  | Some t =>
      dt <- DateTime.new (EmailUtils.tm_year t) (EmailUtils.tm_mon t)
              (EmailUtils.tm_mday t) (EmailUtils.tm_hour t)
              (EmailUtils.tm_min t) (EmailUtils.tm_sec t) ;;
      dt <- match EmailUtils.tm_offset t with
            | Some seconds =>
                tz_offset <- DateTime.timedelta seconds ;;
                DateTime.sub dt tz_offset
            | None => Ok dt
            end ;;
      (* [dt.replace(tzinfo=timezone.utc)], [dt.timestamp() * 1000], [int], [str] *)
      Ok (Py.str_of_int (DateTime.utc_timestamp dt * 1000))
  end.

(** ** The table and main

    A row of the table read from the CSV file, restricted to [keys]. *)

Record Row : Type := mk_row {
  X_Gmail_Labels : cell;
  Date : cell;
  From : cell;
  To : cell;
  Cc : cell;
  Subject : cell;
  Body : cell
}.

(** A row with the added column ['Activity-Assigned-To'], which first holds
    a list and, after [explode], one value. *)
Record Assigned (A : Type) : Type := mk_assigned {
  fields : Row;
  Activity_Assigned_To : A
}.
Arguments mk_assigned {A} fields Activity_Assigned_To.
Arguments fields {A} a.
Arguments Activity_Assigned_To {A} a.

Definition set_X_Gmail_Labels (r : Row) (v : cell) : Row :=
  mk_row v (Date r) (From r) (To r) (Cc r) (Subject r) (Body r).
Definition set_Date (r : Row) (v : cell) : Row :=
  mk_row (X_Gmail_Labels r) v (From r) (To r) (Cc r) (Subject r) (Body r).
Definition set_From (r : Row) (v : cell) : Row :=
  mk_row (X_Gmail_Labels r) (Date r) v (To r) (Cc r) (Subject r) (Body r).
Definition set_To (r : Row) (v : cell) : Row :=
  mk_row (X_Gmail_Labels r) (Date r) (From r) v (Cc r) (Subject r) (Body r).
Definition set_Cc (r : Row) (v : cell) : Row :=
  mk_row (X_Gmail_Labels r) (Date r) (From r) (To r) v (Subject r) (Body r).
Definition set_Subject (r : Row) (v : cell) : Row :=
  mk_row (X_Gmail_Labels r) (Date r) (From r) (To r) (Cc r) v (Body r).

Module Pd.

(** [emails[col] = emails[col].map(f)]: [f] is called on every cell of the
    column, the missing ones too, from the first row to the last. *)
Definition map_column (get : Row -> cell) (set : Row -> cell -> Row)
    (f : cell -> result cell) (emails : list Row) : result (list Row) :=
  mapM (fun r => v <- f (get r) ;; Ok (set r v)) emails.

(** [emails.explode(col)]: a row whose list is empty stays, with the
    missing value; another row is repeated once per element. *)
Definition explode_row (r : Assigned (list string)) : list (Assigned cell) :=
  match Activity_Assigned_To r with
  | [] => [mk_assigned (fields r) None]
  | l => map (fun x => mk_assigned (fields r) (Some x)) l
  end.

Definition explode (emails : list (Assigned (list string)))
  : list (Assigned cell) :=
  flat_map explode_row emails.

(** [emails[emails[col].notna()]] *)
Definition notna (x : cell) : bool :=
  match x with
  | Some _ => true
  | None => false
  end.

End Pd.

(** [lambda x: 'Incoming' if 'Inbox' in x else 'Outgoing'] *)
Definition direction (x : cell) : result cell :=
  match x with
  | None => Raise TypeError
  | Some x => Ok (Some (if Py.contains "Inbox" x then "Incoming" else "Outgoing"))
  end.

(** [lambda x: getDates(x)]; on a missing cell [parsedate_tz] fails at
    [data.split()]. *)
Definition date_cell (x : cell) : result cell :=
  match x with
  | None => Raise AttributeError
  | Some x => ms <- getDates x ;; Ok (Some ms)
  end.

Section Main.

(** [str(make_header(decode_header(x)))] on a string: the decoder of
    [email.header], which raises on a header it cannot decode. *)
Variable header_text : string -> result string.

Definition decode_subject (x : cell) : result cell :=
  match x with
  | None => Raise TypeError
  | Some x => s <- header_text x ;; Ok (Some s)
  end.

Definition main (emails : list Row) : result (list (Assigned cell)) :=
  emails <- Pd.map_column X_Gmail_Labels set_X_Gmail_Labels direction emails ;;
  emails <- Pd.map_column Date set_Date date_cell emails ;;
  emails <- Pd.map_column To set_To (fun x => Ok (extractEmails x)) emails ;;
  emails <- Pd.map_column From set_From (fun x => Ok (extractEmails x)) emails ;;
  emails <- Pd.map_column Cc set_Cc (fun x => Ok (extractEmails x)) emails ;;
  (* the loop over [iterrows] fills the new column of every row *)
  emails <- mapM (fun row =>
                    l <- getNonDomainEmails (From row) (To row) (Cc row) ;;
                    Ok (mk_assigned row l)) emails ;;
  let emails := Pd.explode emails in
  emails <- mapM (fun r =>
                    v <- decode_subject (Subject (fields r)) ;;
                    Ok (mk_assigned (set_Subject (fields r) v)
                                    (Activity_Assigned_To r))) emails ;;
  Ok (filter (fun r => Pd.notna (Activity_Assigned_To r)) emails).

End Main.

(** ** companies-api.py

    [csv.DictReader] (CPython 3.11, csv.py) over the rows that [csv.reader]
    yields, a list of strings per line and the empty list for a blank
    line. *)

Module Csv.

(** What a dictionary of the reader holds under a key: a cell, the cells
    beyond the header ([restkey]) or [None] ([restval]). *)
Inductive value : Type :=
| Str (s : string)
| Rest (l : list string)
| NoneValue.

(** A dictionary as the bindings made, the newest first; the key [None] is
    [restkey]. *)
Definition dict : Type := list (option string * value).

Definition key_eqb (a b : option string) : bool :=
  match a, b with
  | Some x, Some y => String.eqb x y
  | None, None => true
  | _, _ => false
  end.

(** [d[k] = v] *)
Definition set (k : option string) (v : value) (d : dict) : dict :=
  (k, v) :: d.

(** [d[k]]; [None] stands for the [KeyError]. *)
Fixpoint get (k : option string) (d : dict) : option value :=
  match d with
  | [] => None
  | (k', v) :: d' => if key_eqb k' k then Some v else get k d'
  end.

(** [dict(zip(keys, vals))] *)
Definition of_zip (keys vals : list string) : dict :=
  fold_left (fun d kv => set (Some (fst kv)) (Str (snd kv)) d)
    (combine keys vals) [].

(** The dictionary [__next__] builds of a row. *)
Definition row_dict (fieldnames row : list string) : dict :=
  let d := of_zip fieldnames row in
  let lf := List.length fieldnames in
  let lr := List.length row in
  if Nat.ltb lf lr then set None (Rest (skipn lf row)) d
  else if Nat.ltb lr lf
       then fold_left (fun d key => set (Some key) NoneValue d)
              (skipn lr fieldnames) d
       else d.

Definition is_blank (row : list string) : bool :=
  match row with
  | [] => true
  | _ => false
  end.

(** The dictionaries the reader yields: the first row gives the field
    names, and a blank row is passed over. *)
Definition DictReader (rows : list (list string)) : list dict :=
  match rows with
  | [] => []
  | fieldnames :: rows =>
      map (row_dict fieldnames) (filter (fun row => negb (is_blank row)) rows)
  end.

End Csv.

(** [{"properties": {"domain": ...}}] *)
Record properties : Type := mk_properties { domain : Csv.value }.
Record company : Type := mk_company { company_properties : properties }.

(** The list comprehension; [None] stands for the [KeyError] of
    [row["company domain"]]. *)
Fixpoint companies_of (reader : list Csv.dict) : option (list company) :=
  match reader with
  | [] => Some []
  | row :: reader' =>
      match Csv.get (Some "company domain") row with
      | None => None
      | Some v =>
          match companies_of reader' with
          | None => None
          | Some l => Some (mk_company (mk_properties v) :: l)
          end
      end
  end.

Definition companies (rows : list (list string)) : option (list company) :=
  companies_of (Csv.DictReader rows).

(** ** Notions of the specification *)

(** [sub] occurs in [s] as a substring. *)
Definition occurs_in (sub s : string) : Prop :=
  exists pre post, s = (pre ++ sub ++ post)%string.

(** Every character of [s] is in the class [p]. *)
Fixpoint all_chars (p : ascii -> bool) (s : string) : bool :=
  match s with
  | EmptyString => true
  | String c s' => p c && all_chars p s'
  end.

(** The addresses of the specification: a local part of one or more word,
    [.], [+] or [-] characters, an [@], one or more word or [-] characters,
    a dot, and one or more word, [.] or [-] characters. *)
Inductive address : string -> Prop :=
| address_intro (l d t : string) :
    l <> "" -> all_chars local_char l = true ->
    d <> "" -> all_chars domain_char d = true ->
    t <> "" -> all_chars tail_char t = true ->
    address (l ++ "@" ++ d ++ "." ++ t)%string.

(** An address that does not name the own domain. *)
Definition external (a : string) : bool := negb (Py.contains "insidemaps" a).

(** The candidate list in the words of the specification, for a normalised
    [from], a normalised [to] and a normalised [cc] that may be missing. *)
Definition candidates (from to : string) (cc : cell) : list string :=
  (if external from then [from] else [])
  ++ filter external (Py.split ";" to)
  ++ match cc with
     | Some cc => filter external (Py.split ";" cc)
     | None => []
     end.

Definition assignedContacts (from to : string) (cc : cell) : list string :=
  map Py.rstrip (candidates from to cc).

(** The same list when each candidate is stripped before it is compared
    with the marker, as the specification words it. *)
Definition assignedContacts_stripped_first (from to : string) (cc : cell)
  : list string :=
  filter external (map Py.rstrip [from])
  ++ filter external (map Py.rstrip (Py.split ";" to))
  ++ match cc with
     | Some cc => filter external (map Py.rstrip (Py.split ";" cc))
     | None => []
     end.

(** The seconds from the epoch to a date and time of day read as UTC;
    1970-01-01 is day 719163 of the calendar. *)
Definition epoch_seconds (t : EmailUtils.time_tuple) : Z :=
  ((DateTime._ymd2ord (EmailUtils.tm_year t) (EmailUtils.tm_mon t)
      (EmailUtils.tm_mday t) - 719163) * 86400
   + EmailUtils.tm_hour t * 3600 + EmailUtils.tm_min t * 60
   + EmailUtils.tm_sec t)%Z.

(** The fields of the tuple name a day of the calendar of the years 1 to
    9999 and a time of that day. *)
Definition valid_fields (t : EmailUtils.time_tuple) : Prop :=
  (1 <= EmailUtils.tm_year t <= 9999
   /\ 1 <= EmailUtils.tm_mon t <= 12
   /\ 1 <= EmailUtils.tm_mday t
        <= DateTime._days_in_month (EmailUtils.tm_year t) (EmailUtils.tm_mon t)
   /\ 0 <= EmailUtils.tm_hour t <= 23
   /\ 0 <= EmailUtils.tm_min t <= 59
   /\ 0 <= EmailUtils.tm_sec t <= 59)%Z.

(** The instant lies between 0001-01-01T00:00:00 and 9999-12-31T23:59:59. *)
Definition representable (seconds : Z) : Prop :=
  (-62135596800 <= seconds <= 253402300799)%Z.

(** [r] does not start with a character of the class [p]. *)
Definition stops (p : ascii -> bool) (r : string) : Prop :=
  match r with
  | EmptyString => True
  | String c _ => p c = false
  end.

(** A character other than the separator of addresses. *)
Definition not_sep (c : ascii) : bool := negb (Ascii.eqb c ";").

(** What [split] finds in a joined sequence: the empty sequence is joined
    to the empty string, which splits into one empty piece. *)
Definition pieces (ms : list string) : list string :=
  match ms with
  | [] => [""]
  | _ => ms
  end.

(** The contacts of a record in terms of the addresses found in its raw
    fields. *)
Definition contacts_of (fs ts : list string) (cs : option (list string))
  : list string :=
  (if existsb (Py.contains "insidemaps") fs then [] else [Py.join ";" fs])
  ++ filter external (pieces ts)
  ++ match cs with
     | Some cs => filter external (pieces cs)
     | None => []
     end.

(** The fields of the rows a record is expanded into. *)
Definition normalized (r : Row) (labels date subject : cell) : Row :=
  mk_row labels date (extractEmails (From r)) (extractEmails (To r))
    (extractEmails (Cc r)) subject (Body r).

(** The contacts assigned to a record, from its raw fields. *)
Definition contacts (r : Row) : result (list string) :=
  getNonDomainEmails (extractEmails (From r)) (extractEmails (To r))
    (extractEmails (Cc r)).

(** The rows of a record with the given contacts. *)
Definition expansion (r : Row) (labels date subject : cell) (cs : list string)
  : list (Assigned cell) :=
  map (fun c => mk_assigned (normalized r labels date subject) (Some c)) cs.

(** [weave g0 [(m1, g1); ...; (mk, gk)]] is the text
    [g0 m1 g1 ... mk gk]: matches with the gaps around them. *)
Fixpoint weave (gap : string) (parts : list (string * string)) : string :=
  match parts with
  | [] => gap
  | (m, gap') :: parts' => (gap ++ m ++ weave gap' parts')%string
  end.

(** A character other than the at sign. *)
Definition not_at (c : ascii) : bool := negb (Ascii.eqb c "@").

(** An entry of a recipient list as mail programs write it: a display name
    and the address in angle brackets. *)
Definition mailbox (entry : string * string) : string :=
  (fst entry ++ " <" ++ snd entry ++ ">")%string.

(** The seconds from the epoch to the instant a parsed date names. *)
Definition utc_seconds (t : EmailUtils.time_tuple) : Z :=
  (epoch_seconds t
   - match EmailUtils.tm_offset t with
     | Some seconds => seconds
     | None => 0
     end)%Z.

(** The exception of the first element, in the order of the list, that [f]
    raises on. *)
Fixpoint first_raise {A B : Type} (f : A -> result B) (l : list A) : option exn :=
  match l with
  | [] => None
  | x :: l' =>
      match f x with
      | Raise e => Some e
      | Ok _ => first_raise f l'
      end
  end.

(** The first exception of two traversals made one after the other. *)
Definition or_else (a b : option exn) : option exn :=
  match a with
  | Some e => Some e
  | None => b
  end.

(** The cell of a row in column [i], [None] where the row is too short. *)
Definition cell_at (i : nat) (row : list string) : Csv.value :=
  match nth_error row i with
  | Some s => Csv.Str s
  | None => Csv.NoneValue
  end.

(** The bindings of a row, the oldest first: a cell or [None] per field
    name. *)
Fixpoint bindings (fieldnames row : list string) : list (option string * Csv.value) :=
  match fieldnames with
  | [] => []
  | k :: ks =>
      match row with
      | [] => (Some k, Csv.NoneValue) :: bindings ks []
      | v :: vs => (Some k, Csv.Str v) :: bindings ks vs
      end
  end.

(** ** Strings *)

Section StringFacts.

Local Open Scope string_scope.

Lemma append_assoc (a b c : string) : (a ++ b) ++ c = a ++ (b ++ c).
Proof. induction a as [|x a IH]; simpl; [reflexivity | now rewrite IH]. Qed.

Lemma append_empty_r (a : string) : a ++ "" = a.
Proof. induction a as [|x a IH]; simpl; [reflexivity | now rewrite IH]. Qed.

Lemma length_append (a b : string) :
  String.length (a ++ b) = String.length a + String.length b.
Proof. induction a as [|x a IH]; simpl; [reflexivity | now rewrite IH]. Qed.

Lemma take_append (a r : string) : Py.take (String.length a) (a ++ r) = a.
Proof.
  unfold Py.take. induction a as [|x a IH]; simpl.
  - destruct r; reflexivity.
  - now rewrite IH.
Qed.

Lemma all_chars_append (p : ascii -> bool) (a b : string) :
  all_chars p (a ++ b) = all_chars p a && all_chars p b.
Proof.
  induction a as [|x a IH]; simpl; [reflexivity|].
  now rewrite IH, andb_assoc.
Qed.

Lemma all_chars_weaken (p q : ascii -> bool) (s : string) :
  (forall c, p c = true -> q c = true) ->
  all_chars p s = true -> all_chars q s = true.
Proof.
  intros Hpq. induction s as [|x s IH]; simpl; [reflexivity|].
  rewrite !andb_true_iff. intros [Hx Hs]. auto.
Qed.

Lemma prefix_refl_append (sub post : string) : prefix sub (sub ++ post) = true.
Proof.
  induction sub as [|x sub IH]; simpl.
  - destruct post; reflexivity.
  - destruct (ascii_dec x x); [exact IH | congruence].
Qed.

Lemma prefix_split (sub s : string) :
  prefix sub s = true -> exists post, s = sub ++ post.
Proof.
  revert sub. induction s as [|y s IH]; intros [|x sub]; simpl; intros H.
  - now exists "".
  - discriminate.
  - now exists (String y s).
  - destruct (ascii_dec x y) as [->|]; [|discriminate].
    destruct (IH _ H) as [post ->]. now exists post.
Qed.

(** [in] decides the occurrence of a substring. *)
Lemma contains_occurs (sub s : string) :
  Py.contains sub s = true <-> occurs_in sub s.
Proof.
  unfold occurs_in. induction s as [|y s IH]; cbn [Py.contains].
  - split.
    + intros H. destruct (prefix_split _ _ H) as [post Hp]. now exists "", post.
    + intros [[|? pre] [post H]]; simpl in H.
      * rewrite H. apply prefix_refl_append.
      * discriminate.
  - rewrite orb_true_iff, IH. split.
    + intros [H | [pre [post ->]]].
      * destruct (prefix_split _ _ H) as [post Hp]. now exists "", post.
      * now exists (String y pre), post.
    + intros [[|x pre] [post H]]; simpl in H.
      * left. rewrite H. apply prefix_refl_append.
      * right. injection H as _ ->. now exists pre, post.
Qed.

(** A prefix that does not hold [c] ends before the first [c]. *)
Lemma prefix_before_char (c : ascii) (sub a b : string) :
  all_chars (fun x => negb (Ascii.eqb x c)) sub = true ->
  prefix sub (a ++ String c b) = prefix sub a.
Proof.
  revert sub. induction a as [|y a IH]; intros [|x sub]; simpl; try reflexivity.
  - rewrite andb_true_iff, negb_true_iff. intros [Hx _].
    destruct (ascii_dec x c) as [->|]; [|reflexivity].
    now rewrite Ascii.eqb_refl in Hx.
  - rewrite andb_true_iff. intros [_ Hsub].
    destruct (ascii_dec x y); [now apply IH | reflexivity].
Qed.

(** An occurrence of a string without [c] lies on one side of a [c]. *)
Lemma contains_around_char (c : ascii) (sub a b : string) :
  all_chars (fun x => negb (Ascii.eqb x c)) sub = true ->
  Py.contains sub (a ++ String c b) = Py.contains sub a || Py.contains sub b.
Proof.
  intros Hsub. induction a as [|y a IH].
  - change ("" ++ String c b) with (String c b).
    cbn [Py.contains].
    pose proof (prefix_before_char c sub "" b Hsub) as E.
    change ("" ++ String c b) with (String c b) in E.
    now rewrite E.
  - change (String y a ++ String c b) with (String y (a ++ String c b)).
    cbn [Py.contains]. rewrite IH.
    change (String y (a ++ String c b)) with (String y a ++ String c b).
    rewrite (prefix_before_char c sub (String y a) b Hsub).
    now rewrite orb_assoc.
Qed.

Lemma contains_append_l (sub a b : string) :
  Py.contains sub a = true -> Py.contains sub (a ++ b) = true.
Proof.
  rewrite !contains_occurs. intros [pre [post ->]].
  exists pre, (post ++ b). now rewrite !append_assoc.
Qed.

Lemma split_no_sep (c : ascii) (a : string) :
  all_chars (fun x => negb (Ascii.eqb x c)) a = true -> Py.split c a = [a].
Proof.
  induction a as [|y a IH]; simpl; [reflexivity|].
  rewrite andb_true_iff, negb_true_iff. intros [Hy Ha].
  now rewrite Hy, (IH Ha).
Qed.

Lemma split_at_sep (c : ascii) (a b : string) :
  all_chars (fun x => negb (Ascii.eqb x c)) a = true ->
  Py.split c (a ++ String c b) = a :: Py.split c b.
Proof.
  induction a as [|y a IH]; simpl.
  - intros _. now rewrite Ascii.eqb_refl.
  - rewrite andb_true_iff, negb_true_iff. intros [Hy Ha].
    now rewrite Hy, (IH Ha).
Qed.

(** [rstrip] leaves a string alone that ends in no white space. *)
Lemma rstrip_with_ends (p : ascii -> bool) (s : string) (c : ascii) :
  p c = false -> Py.rstrip_with p (s ++ String c "") = s ++ String c "".
Proof.
  intros Hc. induction s as [|y s IH]; simpl.
  - now rewrite Hc.
  - rewrite IH. destruct s; reflexivity.
Qed.

Lemma rstrip_empty : Py.rstrip "" = "".
Proof. reflexivity. Qed.

End StringFacts.

(** ** The matcher on the e-mail pattern *)

Section RegexFacts.

Local Open Scope string_scope.

Lemma plus_stops (p : ascii -> bool) (k : string -> option nat) (r : string) :
  stops p r -> Re.plus p k r = None.
Proof. destruct r as [|c r]; simpl; [reflexivity | now intros ->]. Qed.

(** A greedy run takes the whole block of class characters when the rest
    of the pattern matches right after it. *)
Lemma plus_greedy (p : ascii -> bool) (k : string -> option nat)
    (l r : string) (n : nat) :
  l <> "" -> all_chars p l = true -> stops p r -> k r = Some n ->
  Re.plus p k (l ++ r) = Some (String.length l + n).
Proof.
  intros Hne Hl Hr Hk. induction l as [|c l IH]; [congruence|].
  simpl in Hl. apply andb_true_iff in Hl as [Hc Hl].
  simpl. rewrite Hc. destruct l as [|c' l].
  - simpl. rewrite (plus_stops p k r Hr), Hk. reflexivity.
  - rewrite IH by (congruence || assumption). reflexivity.
Qed.

(** What a successful run has read. *)
Lemma plus_sound (p : ascii -> bool) (k : string -> option nat)
    (s : string) (n : nat) :
  Re.plus p k s = Some n ->
  exists l r m, s = l ++ r /\ l <> "" /\ all_chars p l = true
                /\ k r = Some m /\ n = String.length l + m.
Proof.
  revert n. induction s as [|c s IH]; simpl; intros n H; [discriminate|].
  destruct (p c) eqn:Hc; [|discriminate].
  destruct (Re.plus p k s) as [n'|] eqn:Hrec.
  - injection H as <-.
    destruct (IH n' eq_refl) as (l & r & m & -> & _ & Hl & Hk & ->).
    exists (String c l), r, m. simpl. rewrite Hc, Hl. repeat split; congruence.
  - destruct (k s) as [m|] eqn:Hk; [|discriminate]. injection H as <-.
    exists (String c ""), s, m. simpl. rewrite Hc. repeat split; congruence.
Qed.

Lemma address_nonempty (a : string) : address a -> a <> "".
Proof. intros [l d t Hl _ _ _ _ _]. destruct l; [congruence | discriminate]. Qed.

(** The pattern matches an address in full when no character of its last
    class follows. *)
Lemma match_address (a r : string) :
  address a -> stops tail_char r ->
  Re.match_here email_pattern (a ++ r) = Some (String.length a).
Proof.
  intros [l d t Hl Hlc Hd Hdc Ht Htc] Hr.
  assert (E : (l ++ "@" ++ d ++ "." ++ t) ++ r
              = l ++ String "@" (d ++ String "." (t ++ r))).
  { rewrite append_assoc. simpl. now rewrite append_assoc. }
  rewrite E. unfold email_pattern. cbn [Re.match_here].
  erewrite (plus_greedy local_char _ l); [ | assumption | assumption | reflexivity | ].
  2: { change (Re.lit "@" "@") with true. cbv iota.
       erewrite (plus_greedy domain_char _ d); [ | assumption | assumption | reflexivity | ].
       2: { change (Re.lit "." ".") with true. cbv iota.
            erewrite (plus_greedy tail_char _ t); [ | assumption | assumption | assumption | ].
            2: reflexivity.
            reflexivity. }
       reflexivity. }
  f_equal. repeat (rewrite length_append; simpl). lia.
Qed.

(** What the pattern matches is an address. *)
Lemma match_here_sound (s : string) (n : nat) :
  Re.match_here email_pattern s = Some n ->
  exists a r, s = a ++ r /\ address a /\ n = String.length a.
Proof.
  unfold email_pattern. cbn [Re.match_here]. intros H.
  apply plus_sound in H as (l & r1 & m1 & -> & Hl & Hlc & H & ->).
  destruct r1 as [|c1 r2]; [discriminate|].
  destruct (Re.lit "@" c1) eqn:Hc1; [|discriminate].
  apply Ascii.eqb_eq in Hc1 as <-.
  destruct (Re.plus domain_char _ r2) as [m2|] eqn:H2; [|discriminate].
  injection H as <-.
  apply plus_sound in H2 as (d & r3 & m3 & -> & Hd & Hdc & H & ->).
  destruct r3 as [|c3 r4]; [discriminate|].
  destruct (Re.lit "." c3) eqn:Hc3; [|discriminate].
  apply Ascii.eqb_eq in Hc3 as <-.
  destruct (Re.plus tail_char _ r4) as [m4|] eqn:H4; [|discriminate].
  injection H as <-.
  apply plus_sound in H4 as (t & r5 & m5 & -> & Ht & Htc & H & ->).
  injection H as <-.
  exists (l ++ "@" ++ d ++ "." ++ t), r5. split; [|split].
  - rewrite append_assoc. simpl. now rewrite append_assoc.
  - now constructor.
  - repeat (rewrite length_append; simpl). lia.
Qed.

(** The addresses are the strings the pattern matches in full. *)
Lemma address_fullmatch (a : string) :
  address a <-> Re.match_here email_pattern a = Some (String.length a).
Proof.
  split.
  - intros Ha. rewrite <- (append_empty_r a) at 1.
    now apply match_address.
  - intros H. apply match_here_sound in H as (a' & r & E & Ha & Hlen).
    assert (Hr : r = "").
    { apply (f_equal String.length) in E. rewrite length_append in E.
      destruct r; [reflexivity | simpl in E; lia]. }
    subst r. rewrite append_empty_r in E. now subst a'.
Qed.

Lemma scan_skip (pat : list Re.item) (x r : string) :
  Re.scan pat (String.length x) (x ++ r) = Re.scan pat 0 r.
Proof. induction x as [|c x IH]; simpl; [destruct r; reflexivity | exact IH]. Qed.

Lemma scan_match (pat : list Re.item) (a r : string) :
  a <> "" -> Re.match_here pat (a ++ r) = Some (String.length a) ->
  Re.scan pat 0 (a ++ r) = a :: Re.scan pat 0 r.
Proof.
  intros Hne H. destruct a as [|c a]; [congruence|].
  change (String c a ++ r) with (String c (a ++ r)) in *.
  cbn [Re.scan]. rewrite H. f_equal.
  - apply (take_append (String c a) r).
  - apply scan_skip.
Qed.

(** Every string [findall] returns is an address. *)
Lemma scan_sound (s : string) :
  forall skip, Forall address (Re.scan email_pattern skip s).
Proof.
  induction s as [|c s IH]; intros skip; cbn [Re.scan]; [constructor|].
  destruct skip as [|skip]; [|apply IH].
  destruct (Re.match_here email_pattern (String c s)) as [n|] eqn:H; [|apply IH].
  constructor; [|apply IH].
  apply match_here_sound in H as (a & r & E & Ha & ->).
  rewrite E, take_append. exact Ha.
Qed.

(** Scanning a [;]-joined sequence of addresses gives the sequence back. *)
Lemma findall_join (addrs : list string) :
  Forall address addrs ->
  Re.findall email_pattern (Py.join ";" addrs) = addrs.
Proof.
  unfold Re.findall, Py.join.
  induction 1 as [|a addrs Ha Haddrs IH]; [reflexivity|].
  destruct addrs as [|b addrs].
  - cbn [concat]. rewrite <- (append_empty_r a) at 1.
    rewrite scan_match.
    + reflexivity.
    + now apply address_nonempty.
    + apply match_address; [assumption | exact I].
  - change (concat ";" (a :: b :: addrs))
      with (a ++ String ";" (concat ";" (b :: addrs))).
    rewrite scan_match.
    + f_equal. cbn [Re.scan]. exact IH.
    + now apply address_nonempty.
    + apply match_address; [assumption | reflexivity].
Qed.

End RegexFacts.

(** ** Addresses, separators and white space *)

Section AddressFacts.

Local Open Scope string_scope.

(** No character of an address is the separator or white space. *)
Lemma local_char_plain (c : ascii) :
  local_char c = true -> not_sep c = true /\ Py.isspace c = false.
Proof.
  destruct c as [[] [] [] [] [] [] [] []]; vm_compute; intros H;
    (discriminate H || (split; reflexivity)).
Qed.

Lemma domain_char_local (c : ascii) : domain_char c = true -> local_char c = true.
Proof.
  unfold domain_char, local_char.
  destruct (Re.word c), (Ascii.eqb c "."), (Ascii.eqb c "+"), (Ascii.eqb c "-");
    simpl; congruence.
Qed.

Lemma tail_char_local (c : ascii) : tail_char c = true -> local_char c = true.
Proof.
  unfold tail_char, local_char.
  destruct (Re.word c), (Ascii.eqb c "."), (Ascii.eqb c "+"), (Ascii.eqb c "-");
    simpl; congruence.
Qed.

Lemma address_no_sep (a : string) : address a -> all_chars not_sep a = true.
Proof.
  intros [l d t _ Hl _ Hd _ Ht].
  assert (P : forall c, local_char c = true -> not_sep c = true)
    by (intros c H; now apply local_char_plain).
  rewrite !all_chars_append. simpl.
  rewrite (all_chars_weaken _ _ l P Hl).
  rewrite (all_chars_weaken _ _ d (fun c H => P c (domain_char_local c H)) Hd).
  rewrite (all_chars_weaken _ _ t (fun c H => P c (tail_char_local c H)) Ht).
  reflexivity.
Qed.

Lemma snoc_decompose (s : string) :
  s <> "" -> exists s' c, s = s' ++ String c "".
Proof.
  induction s as [|x s IH]; [congruence|]. intros _.
  destruct s as [|y s].
  - now exists "", x.
  - destruct IH as (s' & c & E); [discriminate|].
    exists (String x s'), c. simpl. now rewrite E.
Qed.

Lemma rstrip_with_append (p : ascii -> bool) (x y : string) :
  y <> "" -> Py.rstrip_with p y = y -> Py.rstrip_with p (x ++ y) = x ++ y.
Proof.
  intros Hne Hy. induction x as [|c x IH]; simpl; [exact Hy|].
  rewrite IH. destruct x; simpl; [destruct y; congruence | reflexivity].
Qed.

Lemma address_rstrip (a : string) : address a -> Py.rstrip a = a.
Proof.
  intros [l d t _ _ _ _ Ht Htc].
  destruct (snoc_decompose t Ht) as (t' & c & ->).
  rewrite all_chars_append in Htc. simpl in Htc.
  apply andb_true_iff in Htc as [_ Hc]. rewrite andb_true_r in Hc.
  apply tail_char_local, local_char_plain in Hc as [_ Hc].
  unfold Py.rstrip.
  rewrite <- !append_assoc. now apply rstrip_with_ends.
Qed.

Lemma join_nonempty (a : string) (l : list string) :
  a <> "" -> Py.join ";" (a :: l) <> "".
Proof.
  unfold Py.join. destruct a as [|c a]; [congruence|]. intros _.
  destruct l; simpl; discriminate.
Qed.

(** Neither does a [;]-joined sequence of addresses end in white space. *)
Lemma join_rstrip (ms : list string) :
  Forall address ms -> Py.rstrip (Py.join ";" ms) = Py.join ";" ms.
Proof.
  induction 1 as [|a ms Ha Hms IH]; [reflexivity|].
  destruct ms as [|b ms].
  - now apply address_rstrip.
  - change (Py.join ";" (a :: b :: ms))
      with (a ++ ";" ++ Py.join ";" (b :: ms)).
    rewrite <- append_assoc. unfold Py.rstrip in *.
    apply rstrip_with_append; [|exact IH].
    apply join_nonempty, address_nonempty. now inversion Hms.
Qed.

Lemma split_join (ms : list string) :
  Forall address ms -> Py.split ";" (Py.join ";" ms) = pieces ms.
Proof.
  induction 1 as [|a ms Ha Hms IH]; [reflexivity|].
  destruct ms as [|b ms].
  - apply split_no_sep. now apply address_no_sep.
  - change (Py.join ";" (a :: b :: ms))
      with (a ++ String ";" (Py.join ";" (b :: ms))).
    rewrite split_at_sep by now apply address_no_sep.
    now rewrite IH.
Qed.

(** The marker occurs in a joined sequence exactly when it occurs in one
    of its members. *)
Lemma contains_join (ms : list string) :
  Py.contains "insidemaps" (Py.join ";" ms)
  = existsb (Py.contains "insidemaps") ms.
Proof.
  induction ms as [|a ms IH]; [reflexivity|].
  destruct ms as [|b ms].
  - simpl. now rewrite orb_false_r.
  - change (Py.join ";" (a :: b :: ms))
      with (a ++ String ";" (Py.join ";" (b :: ms))).
    rewrite contains_around_char by reflexivity.
    now rewrite IH.
Qed.

Lemma pieces_rstrip (ms : list string) :
  Forall address ms ->
  map Py.rstrip (filter external (pieces ms)) = filter external (pieces ms).
Proof.
  intros H. destruct ms as [|a ms]; [reflexivity|].
  cbn [pieces]. induction H as [|b l Hb Hl IH]; [reflexivity|].
  cbn [filter]. destruct (external b); cbn [map]; [|exact IH].
  now rewrite IH, address_rstrip.
Qed.

End AddressFacts.

(** ** Contact assignment *)

Section ContactFacts.

(** Stripping takes a tail of white space off. *)
Lemma rstrip_tail (s : string) :
  exists w, s = (Py.rstrip s ++ w)%string /\ all_chars Py.isspace w = true.
Proof.
  unfold Py.rstrip. induction s as [|c s IH]; [now exists ""|].
  destruct IH as (w & E & Hw). cbn [Py.rstrip_with].
  destruct (Py.rstrip_with Py.isspace s) as [|c' r] eqn:Er.
  - destruct (Py.isspace c) eqn:Hc.
    + exists (String c w). simpl in *. rewrite Hc, Hw. now subst.
    + exists w. simpl in *. now subst.
  - exists w. simpl in *. split; [now rewrite <- E | exact Hw].
Qed.

(** White space after a string adds no occurrence of the marker. *)
Lemma contains_marker_space (s w : string) :
  all_chars Py.isspace w = true ->
  Py.contains "insidemaps" (s ++ w)%string = Py.contains "insidemaps" s.
Proof.
  revert s. induction w as [|c w IH]; intros s Hw.
  - now rewrite append_empty_r.
  - simpl in Hw. apply andb_true_iff in Hw as [Hc Hw].
    replace (s ++ String c w)%string with ((s ++ String c "") ++ w)%string
      by (rewrite append_assoc; reflexivity).
    rewrite (IH _ Hw).
    assert (Hsep : all_chars (fun x => negb (Ascii.eqb x c)) "insidemaps" = true).
    { destruct c as [[] [] [] [] [] [] [] []]; try reflexivity; discriminate Hc. }
    rewrite (contains_around_char c "insidemaps" s "" Hsep).
    now rewrite orb_false_r.
Qed.

Lemma external_rstrip (a : string) : external (Py.rstrip a) = external a.
Proof.
  unfold external. destruct (rstrip_tail a) as (w & E & Hw).
  rewrite E at 2. now rewrite contains_marker_space.
Qed.

Lemma filter_external_rstrip (l : list string) :
  filter external (map Py.rstrip l) = map Py.rstrip (filter external l).
Proof.
  induction l as [|a l IH]; [reflexivity|]. cbn [map filter].
  rewrite external_rstrip. destruct (external a); cbn [map]; now rewrite IH.
Qed.

(** Stripping before or after the comparison gives the same contacts. *)
Lemma assignedContacts_either_order (from to : string) (cc : cell) :
  assignedContacts_stripped_first from to cc = assignedContacts from to cc.
Proof.
  unfold assignedContacts_stripped_first, assignedContacts, candidates.
  rewrite !map_app, !filter_external_rstrip.
  cbn [filter]. destruct (external from), cc as [cc|];
    now rewrite ?filter_external_rstrip.
Qed.

Lemma fold_keep_external (l acc : list string) :
  fold_left keep_external l acc = acc ++ map Py.rstrip (filter external l).
Proof.
  revert acc. induction l as [|a l IH]; intros acc; simpl.
  - now rewrite app_nil_r.
  - rewrite IH. unfold keep_external, external.
    destruct (negb (Py.contains "insidemaps" a)); simpl.
    + now rewrite <- app_assoc.
    + reflexivity.
Qed.

(** The code builds the candidate list of the specification. *)
Lemma getNonDomainEmails_spec (from to : string) (cc : cell) :
  getNonDomainEmails (Some from) (Some to) cc
  = Ok (assignedContacts from to cc).
Proof.
  unfold getNonDomainEmails, assignedContacts, candidates.
  rewrite !map_app. destruct cc as [cc|].
  - rewrite !fold_keep_external. fold (external from).
    destruct (external from); simpl; now rewrite ?app_assoc.
  - rewrite fold_keep_external. fold (external from).
    destruct (external from); simpl; now rewrite ?app_nil_r.
Qed.

Lemma contacts_of_raw (from to : string) (cc : cell) :
  getNonDomainEmails (extractEmails (Some from)) (extractEmails (Some to))
    (extractEmails cc)
  = Ok (contacts_of (Re.findall email_pattern from)
          (Re.findall email_pattern to)
          (option_map (Re.findall email_pattern) cc)).
Proof.
  cbn [extractEmails].
  pose proof (scan_sound from 0) as Hf. pose proof (scan_sound to 0) as Ht.
  fold (Re.findall email_pattern from) in Hf.
  fold (Re.findall email_pattern to) in Ht.
  destruct cc as [cc|]; cbn [extractEmails option_map];
    rewrite getNonDomainEmails_spec;
    unfold assignedContacts, candidates, contacts_of, external at 1;
    rewrite !map_app, contains_join, !split_join by assumption;
    rewrite ?split_join by apply scan_sound;
    rewrite !pieces_rstrip by (assumption || apply scan_sound);
    destruct (existsb _ _); cbn [negb map]; rewrite ?join_rstrip by assumption;
    reflexivity.
Qed.

Lemma existsb_marker (ms : list string) (b : bool) :
  ms <> [] -> Forall (fun a => Py.contains "insidemaps" a = b) ms ->
  existsb (Py.contains "insidemaps") ms = b.
Proof.
  intros Hne H. induction H as [|a ms Ha Hms IH]; [congruence|].
  cbn [existsb]. rewrite Ha. destruct b; [reflexivity|].
  destruct ms as [|a' ms]; [reflexivity|]. apply IH. discriminate.
Qed.

Lemma filter_external_marker (ms : list string) :
  ms <> [] -> Forall (fun a => Py.contains "insidemaps" a = true) ms ->
  filter external (pieces ms) = [].
Proof.
  intros Hne H. destruct ms as [|a ms]; [congruence|]. cbn [pieces].
  clear Hne. induction H as [|b l Hb Hl IH]; [reflexivity|].
  cbn [filter]. unfold external at 1. now rewrite Hb.
Qed.

End ContactFacts.

(** ** Dates *)

Section DateFacts.

Local Open Scope Z_scope.

Lemma days_in_month_le (year month : Z) :
  1 <= month <= 12 -> DateTime._days_in_month year month <= 31.
Proof.
  intros H. unfold DateTime._days_in_month.
  destruct ((month =? 2) && DateTime._is_leap year); [lia|].
  assert (C : month = 1 \/ month = 2 \/ month = 3 \/ month = 4 \/ month = 5
              \/ month = 6 \/ month = 7 \/ month = 8 \/ month = 9
              \/ month = 10 \/ month = 11 \/ month = 12) by lia.
  repeat (destruct C as [-> | C]; [simpl; lia|]). subst. simpl. lia.
Qed.

Lemma days_before_month_bounds (year month : Z) :
  1 <= month <= 12 -> 0 <= DateTime._days_before_month year month <= 335.
Proof.
  intros H. unfold DateTime._days_before_month.
  assert (C : month = 1 \/ month = 2 \/ month = 3 \/ month = 4 \/ month = 5
              \/ month = 6 \/ month = 7 \/ month = 8 \/ month = 9
              \/ month = 10 \/ month = 11 \/ month = 12) by lia.
  destruct ((2 <? month) && DateTime._is_leap year);
    repeat (destruct C as [-> | C]; [simpl; lia|]); subst; simpl; lia.
Qed.

Lemma days_before_year_bounds (year : Z) :
  1 <= year <= 9999 -> 0 <= DateTime._days_before_year year <= 3651695.
Proof.
  intros H. unfold DateTime._days_before_year. cbv zeta.
  Z.div_mod_to_equations. lia.
Qed.

(** The ordinal counts the days of the calendar: it starts at 1, and the
    day after a day, the first day after a month and the first day after a
    year are each one further. *)
Lemma ymd2ord_first_day : DateTime._ymd2ord 1 1 1 = 1.
Proof. reflexivity. Qed.

Lemma ymd2ord_next_day (year month day : Z) :
  DateTime._ymd2ord year month (day + 1)
  = DateTime._ymd2ord year month day + 1.
Proof. unfold DateTime._ymd2ord. lia. Qed.

Lemma ymd2ord_next_month (year month : Z) :
  1 <= month < 12 ->
  DateTime._ymd2ord year (month + 1) 1
  = DateTime._ymd2ord year month (DateTime._days_in_month year month) + 1.
Proof.
  intros H.
  assert (C : month = 1 \/ month = 2 \/ month = 3 \/ month = 4 \/ month = 5
              \/ month = 6 \/ month = 7 \/ month = 8 \/ month = 9
              \/ month = 10 \/ month = 11) by lia.
  unfold DateTime._ymd2ord, DateTime._days_before_month,
    DateTime._days_in_month.
  repeat (destruct C as [-> | C];
          [destruct (DateTime._is_leap year); simpl; lia|]).
  subst. destruct (DateTime._is_leap year); simpl; lia.
Qed.

Lemma ymd2ord_next_year (year : Z) :
  DateTime._ymd2ord (year + 1) 1 1 = DateTime._ymd2ord year 12 31 + 1.
Proof.
  unfold DateTime._ymd2ord, DateTime._days_before_month,
    DateTime._days_before_year, DateTime._is_leap.
  cbv zeta. replace (year + 1 - 1) with year by lia.
  change (nth (Z.to_nat 1) DateTime._DAYS_BEFORE_MONTH 0) with 0.
  change (nth (Z.to_nat 12) DateTime._DAYS_BEFORE_MONTH 0) with 334.
  change (2 <? 1) with false. change (2 <? 12) with true. cbn [andb].
  destruct (year mod 4 =? 0) eqn:E4;
    destruct (year mod 100 =? 0) eqn:E100;
    destruct (year mod 400 =? 0) eqn:E400;
    cbn [andb orb negb];
    rewrite ?Z.eqb_eq, ?Z.eqb_neq in *;
    Z.div_mod_to_equations; lia.
Qed.

Lemma epoch_ordinal : DateTime._ymd2ord 1970 1 1 = 719163.
Proof. reflexivity. Qed.

(** The constructor accepts valid fields. *)
Lemma new_valid (t : EmailUtils.time_tuple) :
  valid_fields t ->
  DateTime.new (EmailUtils.tm_year t) (EmailUtils.tm_mon t)
    (EmailUtils.tm_mday t) (EmailUtils.tm_hour t) (EmailUtils.tm_min t)
    (EmailUtils.tm_sec t)
  = Ok (DateTime.mk_datetime
          (DateTime._ymd2ord (EmailUtils.tm_year t) (EmailUtils.tm_mon t)
             (EmailUtils.tm_mday t))
          (EmailUtils.tm_hour t * 3600 + EmailUtils.tm_min t * 60
           + EmailUtils.tm_sec t)).
Proof.
  destruct t as [y m d H M S wd yd dst off]. unfold valid_fields. cbn.
  intros (Hy & Hm & Hd & HH & HM & HS).
  pose proof (days_in_month_le y m Hm) as Hdim.
  unfold DateTime.new, DateTime.c_int, DateTime.MINYEAR, DateTime.MAXYEAR.
  repeat match goal with
         | |- context [?a <=? ?b] =>
             rewrite (proj2 (Z.leb_le a b)) by lia
         end.
  reflexivity.
Qed.

(** Subtracting an offset moves the time stamp by that many seconds. *)
Lemma sub_timestamp (ord sod delta : Z) :
  1 <= (ord * 86400 + sod - delta) / 86400 <= DateTime.MAXORDINAL ->
  exists dt, DateTime.sub (DateTime.mk_datetime ord sod) delta = Ok dt
             /\ DateTime.utc_timestamp dt
                = (ord - 719163) * 86400 + sod - delta.
Proof.
  intros H. unfold DateTime.sub. cbn [DateTime.ordinal DateTime.second_of_day].
  rewrite (proj2 (Z.leb_le _ _) (proj1 H)), (proj2 (Z.leb_le _ _) (proj2 H)).
  eexists. split; [reflexivity|].
  unfold DateTime.utc_timestamp. cbn [DateTime.ordinal DateTime.second_of_day].
  change (DateTime._ymd2ord 1970 1 1) with 719163.
  pose proof (Z.div_mod (ord * 86400 + sod - delta) 86400). lia.
Qed.

(** [getDates] on a string whose fields are valid. *)
Lemma getDates_valid (s : string) (t : EmailUtils.time_tuple) :
  EmailUtils.parsedate_tz s = Ok (Some t) ->
  valid_fields t ->
  representable
    (epoch_seconds t
     - match EmailUtils.tm_offset t with Some seconds => seconds | None => 0 end) ->
  getDates s
  = Ok (Py.str_of_int
          ((epoch_seconds t
            - match EmailUtils.tm_offset t with Some seconds => seconds | None => 0 end)
           * 1000)).
Proof.
  intros Hp Hv Hr. unfold getDates. rewrite Hp. cbn [bind].
  rewrite (new_valid t Hv). cbn [bind].
  destruct t as [y m d H M S wd yd dst off].
  unfold representable, epoch_seconds, valid_fields in *.
  cbn [EmailUtils.tm_year EmailUtils.tm_mon EmailUtils.tm_mday
       EmailUtils.tm_hour EmailUtils.tm_min EmailUtils.tm_sec
       EmailUtils.tm_offset] in *.
  destruct Hv as (Hy & Hm & Hd & HH & HM & HS).
  pose proof (days_in_month_le y m Hm) as Hdim.
  pose proof (days_before_month_bounds y m Hm) as Hdbm.
  pose proof (days_before_year_bounds y Hy) as Hdby.
  unfold DateTime._ymd2ord in *.
  set (dby := DateTime._days_before_year y) in *.
  set (dbm := DateTime._days_before_month y m) in *.
  destruct off as [off|].
  - unfold DateTime.timedelta.
    assert (Hoff : -999999999 <= off / 86400 <= 999999999).
    { split; [apply Z.div_le_lower_bound | apply Z.div_le_upper_bound]; lia. }
    rewrite (proj2 (Z.leb_le _ _) (proj1 Hoff)), (proj2 (Z.leb_le _ _) (proj2 Hoff)).
    cbn [andb bind].
    destruct (sub_timestamp (dby + dbm + d) (H * 3600 + M * 60 + S) off)
      as (dt & -> & Hts).
    + unfold DateTime.MAXORDINAL. clear Hoff. Z.div_mod_to_equations. lia.
    + cbn [bind]. rewrite Hts. do 2 f_equal. lia.
  - cbn [bind]. unfold DateTime.utc_timestamp.
    cbn [DateTime.ordinal DateTime.second_of_day].
    change (DateTime._ymd2ord 1970 1 1) with 719163.
    do 2 f_equal. lia.
Qed.

(** *** The parser returns

    The indexing in [parse_fields] is never out of range: every word that
    [split] returns holds a character, and so does the word of the time. *)

Lemma string_of_list_nonempty (l : list ascii) :
  l <> [] -> string_of_list_ascii l <> "".
Proof. destruct l; [congruence | discriminate]. Qed.

Lemma split_ws_aux_words (s : string) (tok : list ascii) :
  Forall (fun w => w <> "") (Py.split_ws_aux tok s).
Proof.
  revert tok. induction s as [|c s IH]; intros tok; cbn [Py.split_ws_aux].
  - destruct tok as [|a tok]; constructor; [|constructor].
    apply string_of_list_nonempty. intros E.
    apply (f_equal (@List.length ascii)) in E.
    rewrite length_rev in E. discriminate.
  - destruct (Py.isspace c); [|apply IH].
    apply Forall_app. split; [|apply IH].
    destruct tok as [|a tok]; constructor; [|constructor].
    apply string_of_list_nonempty. intros E.
    apply (f_equal (@List.length ascii)) in E.
    rewrite length_rev in E. discriminate.
Qed.

Lemma last_char_ok (s : string) : s <> "" -> exists c, Py.last_char s = Ok c.
Proof.
  induction s as [|a s IH]; [congruence|]. intros _. destruct s as [|b s].
  - now exists a.
  - destruct IH as [c Hc]; [discriminate|]. exists c. exact Hc.
Qed.

Lemma first_char_ok (s : string) : s <> "" -> exists c, Py.first_char s = Ok c.
Proof. destruct s as [|a s]; [congruence|]. now exists a. Qed.

Lemma index_of_ok (s : string) (l : list string) :
  Py.mem s l = true -> exists i, Py.index_of s l = Ok i.
Proof.
  unfold Py.mem. induction l as [|x l IH]; simpl; [discriminate|].
  rewrite (String.eqb_sym s x). destruct (String.eqb x s); [now eexists|].
  simpl. intros H. destruct (IH H) as [i ->]. now eexists.
Qed.

Lemma lower_nonempty (s : string) : s <> "" -> Py.lower s <> "".
Proof. destruct s; [congruence | discriminate]. Qed.

Lemma is_empty_false (s : string) : EmailUtils.is_empty s = false -> s <> "".
Proof. unfold EmailUtils.is_empty. intros H ->. discriminate. Qed.

Lemma take_nonempty (n : nat) (s : string) :
  (0 < n)%nat -> s <> "" -> Py.take n s <> "".
Proof.
  destruct n as [|n]; [lia|]. destruct s as [|c s]; [congruence|]. discriminate.
Qed.

Lemma parse_fields_returns (dd mm yy tm tz : string) :
  tm <> "" -> exists r, EmailUtils.parse_fields dd mm yy tm tz = Ok r.
Proof.
  intros Htm. unfold EmailUtils.parse_fields.
  destruct (EmailUtils.is_empty dd) eqn:Edd; [now eexists|].
  destruct (EmailUtils.is_empty mm) eqn:Emm; [now eexists|].
  destruct (EmailUtils.is_empty yy) eqn:Eyy; [now eexists|].
  apply is_empty_false in Edd, Emm, Eyy. cbn [orb]. cbv zeta.
  destruct (Py.mem (Py.lower mm) EmailUtils._monthnames) eqn:Em1; cbn [negb].
  - rewrite Em1. cbn [negb].
    destruct (index_of_ok _ _ Em1) as [i ->]. cbn [bind].
    destruct (last_char_ok dd Edd) as [c1 ->]. cbn [bind].
    destruct (0 <? Py.find ":" yy).
    + destruct (last_char_ok tm Htm) as [c2 ->]. cbn [bind].
      destruct (Ascii.eqb c2 ",") eqn:E2; cbn [andb].
      * destruct (EmailUtils.is_empty (Py.drop_last tm)) eqn:E3; [now eexists|].
        destruct (first_char_ok _ (is_empty_false _ E3)) as [c3 ->]. cbn [bind].
        destruct (last_char_ok yy Eyy) as [c4 ->]. now eexists.
      * destruct (first_char_ok tm Htm) as [c3 ->]. cbn [bind].
        destruct (last_char_ok yy Eyy) as [c4 ->]. now eexists.
    + destruct (last_char_ok yy Eyy) as [c2 ->]. cbn [bind].
      destruct (Ascii.eqb c2 ",") eqn:E2; cbn [andb].
      * destruct (EmailUtils.is_empty (Py.drop_last yy)) eqn:E3; [now eexists|].
        destruct (first_char_ok _ (is_empty_false _ E3)) as [c3 ->]. cbn [bind].
        destruct (last_char_ok tm Htm) as [c4 ->]. now eexists.
      * destruct (first_char_ok yy Eyy) as [c3 ->]. cbn [bind].
        destruct (last_char_ok tm Htm) as [c4 ->]. now eexists.
  - destruct (Py.mem (Py.lower dd) EmailUtils._monthnames) eqn:Em2;
      cbn [negb]; [|now eexists].
    destruct (index_of_ok _ _ Em2) as [i ->]. cbn [bind].
    destruct (last_char_ok _ (lower_nonempty mm Emm)) as [c1 ->]. cbn [bind].
    destruct (0 <? Py.find ":" yy).
    + destruct (last_char_ok tm Htm) as [c2 ->]. cbn [bind].
      destruct (Ascii.eqb c2 ",") eqn:E2; cbn [andb].
      * destruct (EmailUtils.is_empty (Py.drop_last tm)) eqn:E3; [now eexists|].
        destruct (first_char_ok _ (is_empty_false _ E3)) as [c3 ->]. cbn [bind].
        destruct (last_char_ok yy Eyy) as [c4 ->]. now eexists.
      * destruct (first_char_ok tm Htm) as [c3 ->]. cbn [bind].
        destruct (last_char_ok yy Eyy) as [c4 ->]. now eexists.
    + destruct (last_char_ok yy Eyy) as [c2 ->]. cbn [bind].
      destruct (Ascii.eqb c2 ",") eqn:E2; cbn [andb].
      * destruct (EmailUtils.is_empty (Py.drop_last yy)) eqn:E3; [now eexists|].
        destruct (first_char_ok _ (is_empty_false _ E3)) as [c3 ->]. cbn [bind].
        destruct (last_char_ok tm Htm) as [c4 ->]. now eexists.
      * destruct (first_char_ok yy Eyy) as [c3 ->]. cbn [bind].
        destruct (last_char_ok tm Htm) as [c4 ->]. now eexists.
Qed.

(** In the regrouped words, the fourth one, the time, holds a character
    when every word after the first did. *)
Lemma regroup_time (w : string) (ws : list string) :
  Forall (fun x => x <> "") ws ->
  match EmailUtils.regroup (w :: ws) with
  | _ :: _ :: _ :: tm :: _ => tm <> ""
  | _ => True
  end.
Proof.
  intros H. unfold EmailUtils.regroup.
  destruct ws as [|b [|c [|d [|e more]]]]; try exact I.
  - (* three words *)
    cbv zeta. destruct (Py.split "-" w) as [|s1 [|s2 [|s3 [|s4 more]]]];
      cbn [List.length Nat.eqb app]; try exact I.
    exact (Forall_inv H).
  - (* four words *)
    cbv zeta. pose proof (Forall_inv (Forall_inv_tail (Forall_inv_tail H))) as Hd.
    cbv beta in Hd.
    match goal with
    | |- context [if ?t then _ else _] => destruct t eqn:E
    end; cbn [app]; [|exact Hd].
    apply take_nonempty; [|exact Hd]. apply Z.ltb_lt in E. lia.
  - (* five words and more *)
    exact (Forall_inv (Forall_inv_tail (Forall_inv_tail H))).
Qed.

Theorem parsedate_tz_returns (s : string) :
  exists r, EmailUtils.parsedate_tz s = Ok r.
Proof.
  assert (H : exists r, EmailUtils._parsedate_tz s = Ok r).
  { unfold EmailUtils._parsedate_tz.
    destruct (EmailUtils.is_empty s); [now eexists|].
    pose proof (split_ws_aux_words s []) as Hw. fold (Py.split_ws s) in Hw.
    destruct (Py.split_ws s) as [|d0 rest]; [now eexists|].
    inversion Hw as [|? ? Hd0 Hrest]. subst. cbv zeta.
    assert (G : forall w ws,
               Forall (fun x => x <> "") ws ->
               exists r,
                 match EmailUtils.regroup (w :: ws) with
                 | dd :: mm :: yy :: tm :: tz :: _ =>
                     EmailUtils.parse_fields dd mm yy tm tz
                 | _ => Ok None
                 end = Ok r).
    { intros w ws Hws. pose proof (regroup_time w ws Hws) as Ht.
      destruct (EmailUtils.regroup (w :: ws))
        as [|dd [|mm [|yy [|tm [|tz more]]]]]; try (now eexists).
      now apply parse_fields_returns. }
    destruct (Py.endswith "," d0 || Py.mem (Py.lower d0) EmailUtils._daynames).
    - destruct rest as [|w ws]; [now eexists|].
      inversion Hrest. now apply G.
    - destruct (0 <=? Py.rfind "," d0)%Z; now apply G. }
  destruct H as [r Hr]. unfold EmailUtils.parsedate_tz. rewrite Hr. cbn [bind].
  destruct r as [t|]; [destruct (EmailUtils.tm_offset t)|]; now eexists.
Qed.

End DateFacts.

(** ** The pipeline, record by record *)

Ltac row_simpl :=
  unfold set_X_Gmail_Labels, set_Date, set_From, set_To, set_Cc, set_Subject;
  cbn [mapM bind X_Gmail_Labels Date From To Cc Subject Body fields
       Activity_Assigned_To].

Section MainFacts.

Variable header_text : string -> result string.

Lemma mapM_app {A B : Type} (f : A -> result B) (l1 l2 : list A) :
  mapM f (l1 ++ l2) = (a <- mapM f l1 ;; b <- mapM f l2 ;; Ok (a ++ b)).
Proof.
  induction l1 as [|x l1 IH]; simpl.
  - destruct (mapM f l2); reflexivity.
  - destruct (f x); simpl; [|reflexivity]. rewrite IH.
    destruct (mapM f l1); simpl; [|reflexivity].
    destruct (mapM f l2); reflexivity.
Qed.

(** Decoding the subject of the copies of one row. *)
Lemma decode_copies (row : Row) (subject : cell) (cs : list string) :
  decode_subject header_text (Subject row) = Ok subject ->
  mapM (fun r : Assigned cell =>
          v <- decode_subject header_text (Subject (fields r)) ;;
          Ok (mk_assigned (set_Subject (fields r) v) (Activity_Assigned_To r)))
       (map (fun c => mk_assigned row (Some c)) cs)
  = Ok (map (fun c => mk_assigned (set_Subject row subject) (Some c)) cs).
Proof.
  intros H. induction cs as [|c cs IH]; [reflexivity|].
  cbn [map mapM fields Activity_Assigned_To]. rewrite H. cbn [bind].
  rewrite IH. reflexivity.
Qed.

Lemma filter_copies (row : Row) (cs : list string) :
  filter (fun r : Assigned cell => Pd.notna (Activity_Assigned_To r))
         (map (fun c => mk_assigned row (Some c)) cs)
  = map (fun c => mk_assigned row (Some c)) cs.
Proof. induction cs as [|c cs IH]; [reflexivity|]. cbn. now rewrite IH. Qed.

(** The table of one record. *)
Lemma main_single (r : Row) (labels date subject : cell) (cs : list string) :
  direction (X_Gmail_Labels r) = Ok labels ->
  date_cell (Date r) = Ok date ->
  decode_subject header_text (Subject r) = Ok subject ->
  contacts r = Ok cs ->
  main header_text [r] = Ok (expansion r labels date subject cs).
Proof.
  destruct r as [l d f t c sj b]. unfold contacts, expansion, normalized.
  cbn [X_Gmail_Labels Date From To Cc Subject Body].
  intros Hl Hd Hs Hc.
  unfold main, Pd.map_column.
  cbn [mapM bind]. row_simpl. rewrite Hl. cbn [bind]. row_simpl.
  rewrite Hd. cbn [bind]. row_simpl.
  rewrite Hc. cbn [bind]. unfold Pd.explode. cbn [flat_map].
  rewrite app_nil_r. unfold Pd.explode_row. row_simpl.
  destruct cs as [|c0 cs].
  - cbn [mapM]. row_simpl. rewrite Hs. reflexivity.
  - rewrite (decode_copies _ subject) by exact Hs.
    cbn [bind]. row_simpl.
    now rewrite filter_copies.
Qed.

(** The rows of a table are those of its parts, in order. *)
Lemma main_app (l1 l2 : list Row) (o1 o2 : list (Assigned cell)) :
  main header_text l1 = Ok o1 -> main header_text l2 = Ok o2 ->
  main header_text (l1 ++ l2) = Ok (o1 ++ o2).
Proof.
  unfold main, Pd.map_column. intros H1 H2.
  repeat match goal with
         | H : bind ?m _ = Ok _ |- _ =>
             let E := fresh "E" in
             destruct m eqn:E; cbn [bind] in H; [|discriminate H]
         end.
  injection H1 as <-. injection H2 as <-.
  repeat (rewrite mapM_app;
          match goal with
          | E1 : ?m1 = Ok _, E2 : ?m2 = Ok _
            |- context [bind ?m1 (fun _ => bind ?m2 _)] =>
              rewrite E1, E2; cbn [bind]
          end).
  unfold Pd.explode. rewrite flat_map_app, mapM_app.
  match goal with
  | E1 : ?m1 = Ok _, E2 : ?m2 = Ok _
    |- context [bind ?m1 (fun _ => bind ?m2 _)] =>
      unfold Pd.explode in E1, E2; rewrite E1, E2; cbn [bind]
  end.
  now rewrite filter_app.
Qed.

(** A record among others. *)
Lemma main_record (before after : list Row) (r : Row)
    (out_before out_after rows : list (Assigned cell)) :
  main header_text before = Ok out_before ->
  main header_text after = Ok out_after ->
  main header_text [r] = Ok rows ->
  main header_text (before ++ r :: after)
  = Ok (out_before ++ rows ++ out_after).
Proof.
  intros Hb Ha Hr. apply main_app; [exact Hb|].
  change (r :: after) with ([r] ++ after). now apply main_app.
Qed.

(** What a traversal that succeeds did to an element, and a traversal over
    an element that raises. *)
Lemma mapM_In {A B : Type} (f : A -> result B) (l : list A) (l' : list B)
    (x : A) :
  mapM f l = Ok l' -> In x l -> exists y, f x = Ok y /\ In y l'.
Proof.
  revert l'. induction l as [|a l IH]; intros l' H Hin; [destruct Hin|].
  simpl in H. destruct (f a) as [b|] eqn:Ha; [|discriminate].
  destruct (mapM f l) as [bs|] eqn:Hl; [|discriminate].
  injection H as <-. destruct Hin as [<- | Hin].
  - exists b. split; [exact Ha | now left].
  - destruct (IH bs eq_refl Hin) as (y & Hy & Hin'). exists y.
    split; [exact Hy | now right].
Qed.

Lemma mapM_raises {A B : Type} (f : A -> result B) (l : list A) (x : A)
    (e : exn) :
  In x l -> f x = Raise e -> exists e', mapM f l = Raise e'.
Proof.
  intros Hin Hx. induction l as [|a l IH]; [destruct Hin|].
  simpl. destruct (f a) as [b|e0] eqn:Ha; [|now exists e0].
  destruct Hin as [-> | Hin]; [congruence|].
  destruct (IH Hin) as [e' ->]. now exists e'.
Qed.

Lemma map_column_In (get : Row -> cell) (set : Row -> cell -> Row)
    (f : cell -> result cell) (l l' : list Row) (x : Row) :
  Pd.map_column get set f l = Ok l' -> In x l ->
  exists v, f (get x) = Ok v /\ In (set x v) l'.
Proof.
  intros H Hin. destruct (mapM_In _ _ _ _ H Hin) as (y & Hy & Hin').
  destruct (f (get x)) as [v|]; [|discriminate].
  injection Hy as <-. now exists v.
Qed.

Lemma map_column_raises (get : Row -> cell) (set : Row -> cell -> Row)
    (f : cell -> result cell) (l : list Row) (x : Row) (e : exn) :
  In x l -> f (get x) = Raise e ->
  exists e', Pd.map_column get set f l = Raise e'.
Proof.
  intros Hin Hx. apply (mapM_raises _ _ x e Hin). now rewrite Hx.
Qed.

(** One date that [getDates] fails on stops the run. *)
Lemma main_aborts_on_date (table : list Row) (r : Row) (e : exn) :
  In r table -> date_cell (Date r) = Raise e ->
  exists e', main header_text table = Raise e'.
Proof.
  intros Hin Hd. unfold main.
  destruct (Pd.map_column X_Gmail_Labels _ _ table) as [t1|e1] eqn:E1;
    cbn [bind]; [|now exists e1].
  destruct (map_column_In _ _ _ _ _ _ E1 Hin) as (v & _ & Hin1).
  destruct (map_column_raises Date set_Date date_cell t1 _ e Hin1 Hd)
    as [e' ->].
  now exists e'.
Qed.

Lemma getNonDomainEmails_null_to (fromData ccData : cell) :
  exists e, getNonDomainEmails fromData None ccData = Raise e.
Proof. destruct fromData; simpl; eexists; reflexivity. Qed.

(** One row without a [To] stops the run. *)
Lemma main_aborts_on_null_to (table : list Row) (r : Row) :
  In r table -> To r = None ->
  exists e', main header_text table = Raise e'.
Proof.
  intros Hin Ht. unfold main.
  destruct (Pd.map_column X_Gmail_Labels _ _ table) as [t1|e1] eqn:E1;
    cbn [bind]; [|now exists e1].
  destruct (map_column_In _ _ _ _ _ _ E1 Hin) as (v1 & _ & Hin1).
  destruct (Pd.map_column Date _ _ t1) as [t2|e2] eqn:E2;
    cbn [bind]; [|now exists e2].
  destruct (map_column_In _ _ _ _ _ _ E2 Hin1) as (v2 & _ & Hin2).
  destruct (Pd.map_column To _ _ t2) as [t3|e3] eqn:E3;
    cbn [bind]; [|now exists e3].
  destruct (map_column_In _ _ _ _ _ _ E3 Hin2) as (v3 & Hv3 & Hin3).
  destruct (Pd.map_column From _ _ t3) as [t4|e4] eqn:E4;
    cbn [bind]; [|now exists e4].
  destruct (map_column_In _ _ _ _ _ _ E4 Hin3) as (v4 & _ & Hin4).
  destruct (Pd.map_column Cc _ _ t4) as [t5|e5] eqn:E5;
    cbn [bind]; [|now exists e5].
  destruct (map_column_In _ _ _ _ _ _ E5 Hin4) as (v5 & _ & Hin5).
  revert Hv3. row_simpl. rewrite Ht. cbn [extractEmails]. intros [= <-].
  match goal with
  | |- exists e', bind (mapM ?f t5) _ = _ =>
      destruct (getNonDomainEmails_null_to v4 v5) as [e He];
      destruct (mapM_raises f t5 _ e Hin5) as [e' ->];
      [row_simpl; now rewrite He | now exists e']
  end.
Qed.

End MainFacts.

(** ** The properties of the specification *)

(** C1, on the code. A missing cell stays missing under extraction, and a
    missing [cc] raises nothing and adds no candidate; a missing [to], which
    the claim treats alike, makes [getNonDomainEmails] raise at
    [toData.split], and the run with it. *)
Theorem C1_null_to_raises :
  extractEmails None = None
  /\ (forall from to : string,
         getNonDomainEmails (Some from) (Some to) (extractEmails None)
         = Ok (map Py.rstrip
                 ((if external from then [from] else [])
                  ++ filter external (Py.split ";" to))))
  /\ (forall (from : string) (cc : cell),
         getNonDomainEmails (Some from) (extractEmails None) cc
         = Raise AttributeError)
  /\ (forall (header_text : string -> result string) (table : list Row)
             (r : Row),
         In r table -> To r = None ->
         exists e, main header_text table = Raise e)
  /\ main (fun s => Ok s)
       [mk_row (Some "Sent") (Some "Fri, 15 Dec 2023 16:40:42 +0000")
          (Some "me@insidemaps.com") None (Some "hidden@external.com")
          (Some "Hello") None]
     = Raise AttributeError.
Proof.
  split; [reflexivity|]. split.
  - intros from to. rewrite getNonDomainEmails_spec.
    unfold assignedContacts, candidates. now rewrite app_nil_r.
  - split; [reflexivity|]. split; [|vm_compute; reflexivity].
    intros header_text table r. apply main_aborts_on_null_to.
Qed.

(** C2. The contacts assigned to a record are the normalised [from] when it
    does not hold the marker, then the [;]-separated pieces of the
    normalised [to] that do not hold it, then those of the normalised [cc]
    when there is one, each stripped of trailing white space (before or
    after the comparison with the marker, it makes no difference), in order
    and with repetitions kept. With [from] = x@insidemaps.com,
    [to] = y@external.com;z@insidemaps.com and no [cc] the contacts are
    y@external.com alone. *)
Theorem C2_assigned_contacts :
  (forall (from to : string) (cc : cell),
      getNonDomainEmails (Some from) (Some to) cc
      = Ok (assignedContacts from to cc)
      /\ assignedContacts from to cc
         = assignedContacts_stripped_first from to cc)
  /\ getNonDomainEmails (extractEmails (Some "x@insidemaps.com"))
       (extractEmails (Some "y@external.com;z@insidemaps.com"))
       (extractEmails None)
     = Ok ["y@external.com"]
  /\ getNonDomainEmails (extractEmails (Some "A <a@x.com>"))
       (extractEmails (Some "a@x.com, b@y.org"))
       (extractEmails (Some "b@y.org; a@x.com"))
     = Ok ["a@x.com"; "a@x.com"; "b@y.org"; "b@y.org"; "a@x.com"].
Proof.
  split; [|split; reflexivity].
  intros from to cc. split.
  - apply getNonDomainEmails_spec.
  - symmetry. apply assignedContacts_either_order.
Qed.

(** C3 does not hold for every string that parses: the instant of a valid
    date and time at the end of the year 9999 with a zone west of Greenwich
    is past the last [datetime], and a day that its month does not have is
    refused by the constructor. *)
Lemma C3_counterexample :
  EmailUtils.parsedate_tz "Fri, 31 Dec 9999 23:59:59 -0100"
  = Ok (Some (EmailUtils.mk_time_tuple 9999 12 31 23 59 59 0 1 (-1)
                (Some (-3600)%Z)))
  /\ getDates "Fri, 31 Dec 9999 23:59:59 -0100" = Raise OverflowError
  /\ EmailUtils.parsedate_tz "Thu, 30 Feb 2023 10:00:00 +0000"
     = Ok (Some (EmailUtils.mk_time_tuple 2023 2 30 10 0 0 0 1 (-1)
                   (Some 0%Z)))
  /\ getDates "Thu, 30 Feb 2023 10:00:00 +0000"
     = Raise (ValueError "day is out of range for month").
Proof. repeat split; vm_compute; reflexivity. Qed.

(** C3, amended. For a string the parser accepts with fields that name a
    date and time, and an instant that a [datetime] can hold, [getDates]
    takes the zone offset, when there is one, from the
    date and time read as UTC, takes the date and time as UTC when there is
    none, and returns the whole milliseconds from the epoch to that instant
    in decimal; for Fri, 15 Dec 2023 16:40:42 +0000 it returns
    1702658442000, and the same without the zone. *)
Theorem C3_getDates_utc_milliseconds :
  (forall (s : string) (t : EmailUtils.time_tuple),
      EmailUtils.parsedate_tz s = Ok (Some t) ->
      valid_fields t ->
      representable
        (epoch_seconds t
         - match EmailUtils.tm_offset t with
           | Some seconds => seconds
           | None => 0%Z
           end)%Z ->
      getDates s
      = Ok (Py.str_of_int
              ((epoch_seconds t
                - match EmailUtils.tm_offset t with
                  | Some seconds => seconds
                  | None => 0%Z
                  end) * 1000)%Z))
  /\ getDates "Fri, 15 Dec 2023 16:40:42 +0000" = Ok "1702658442000"
  /\ getDates "Fri, 15 Dec 2023 16:40:42" = Ok "1702658442000".
Proof.
  split; [exact getDates_valid | split; vm_compute; reflexivity].
Qed.

Lemma C3_witness :
  let s := "Fri, 15 Dec 2023 11:40:42 -0500" in
  let t := EmailUtils.mk_time_tuple 2023 12 15 11 40 42 0 1 (-1) (Some (-18000)%Z) in
  EmailUtils.parsedate_tz s = Ok (Some t)
  /\ valid_fields t
  /\ representable (epoch_seconds t - (-18000))%Z
  /\ getDates s = Ok "1702658442000".
Proof.
  intros s t.
  assert (Hp : EmailUtils.parsedate_tz s = Ok (Some t)) by (vm_compute; reflexivity).
  assert (Hv : valid_fields t) by (unfold valid_fields; repeat split; apply Z.leb_le; reflexivity).
  assert (Hr : representable (epoch_seconds t - (-18000))%Z)
    by (unfold representable; split; apply Z.leb_le; reflexivity).
  split; [exact Hp | split; [exact Hv | split; [exact Hr|]]].
  exact (proj1 C3_getDates_utc_milliseconds s t Hp Hv Hr).
Defined.

(** C4 does not hold as stated: the parser accepts a string whose day is
    not a day of its month, and [getDates] fails on it, in the constructor
    of the date. *)
Lemma C4_counterexample :
  EmailUtils.parsedate_tz "Fri, 32 Dec 2023 16:40:42 +0000"
  = Ok (Some (EmailUtils.mk_time_tuple 2023 12 32 16 40 42 0 1 (-1) (Some 0%Z)))
  /\ getDates "Fri, 32 Dec 2023 16:40:42 +0000"
     = Raise (ValueError "day is out of range for month").
Proof. split; vm_compute; reflexivity. Qed.

(** C4, amended. [getDates] raises its invalid-format error exactly when
    the parser returns no tuple; on a string the parser accepts it raises
    nothing when the fields name a date and time and the instant is
    representable; and a table with a date the parser refuses stops the
    run. *)
Theorem C4_invalid_date_format (s : string) :
  (getDates s = Raise (ValueError "Invalid RFC 2822 date format")
   <-> EmailUtils.parsedate_tz s = Ok None)
  /\ (forall t : EmailUtils.time_tuple,
         EmailUtils.parsedate_tz s = Ok (Some t) ->
         valid_fields t ->
         representable
           (epoch_seconds t
            - match EmailUtils.tm_offset t with
              | Some seconds => seconds
              | None => 0%Z
              end)%Z ->
         exists ms, getDates s = Ok ms)
  /\ (forall (header_text : string -> result string) (table : list Row)
             (r : Row),
         In r table -> Date r = Some s ->
         EmailUtils.parsedate_tz s = Ok None ->
         exists e, main header_text table = Raise e).
Proof.
  split; [|split].
  - split.
    + unfold getDates.
      destruct (EmailUtils.parsedate_tz s) as [[t|]|e] eqn:Hp; cbn [bind].
      * destruct (DateTime.new _ _ _ _ _ _) as [dt|e] eqn:Hnew; cbn [bind].
        -- destruct (EmailUtils.tm_offset t) as [off|]; cbn [bind];
             [|discriminate].
           unfold DateTime.timedelta, DateTime.sub.
           repeat match goal with
                  | |- context [if ?b then _ else _] => destruct b; cbn [bind]
                  end; discriminate.
        -- intros [= ->]. revert Hnew. unfold DateTime.new.
           repeat match goal with
                  | |- (if ?b then _ else _) = _ -> _ => destruct b
                  end; discriminate.
      * reflexivity.
      * destruct (parsedate_tz_returns s) as [r Hr]. congruence.
    + intros Hp. unfold getDates. rewrite Hp. reflexivity.
  - intros t Hp Hv Hr. rewrite (getDates_valid s t Hp Hv Hr). eexists. reflexivity.
  - intros header_text table r Hin Hd Hp.
    apply (main_aborts_on_date header_text table r
             (ValueError "Invalid RFC 2822 date format") Hin).
    rewrite Hd. unfold date_cell, getDates. now rewrite Hp.
Qed.

Lemma C4_witness :
  let s := "Mon, 1 Jan 2024 00:30:00 +0100" in
  let t := EmailUtils.mk_time_tuple 2024 1 1 0 30 0 0 1 (-1) (Some 3600%Z) in
  EmailUtils.parsedate_tz s = Ok (Some t)
  /\ valid_fields t
  /\ representable (epoch_seconds t - 3600)%Z
  /\ exists ms, getDates s = Ok ms.
Proof.
  intros s t.
  assert (Hp : EmailUtils.parsedate_tz s = Ok (Some t)) by (vm_compute; reflexivity).
  assert (Hv : valid_fields t) by (unfold valid_fields; repeat split; apply Z.leb_le; reflexivity).
  assert (Hr : representable (epoch_seconds t - 3600)%Z)
    by (unfold representable; split; apply Z.leb_le; reflexivity).
  split; [exact Hp | split; [exact Hv | split; [exact Hr|]]].
  exact (proj1 (proj2 (C4_invalid_date_format s)) t Hp Hv Hr).
Defined.

(** Whatever [getDates] raises is a [ValueError] or an [OverflowError]. *)
Theorem getDates_exceptions (s : string) (e : exn) :
  getDates s = Raise e -> (exists msg, e = ValueError msg) \/ e = OverflowError.
Proof.
  unfold getDates. destruct (parsedate_tz_returns s) as [[t|] ->]; cbn [bind].
  - destruct (DateTime.new _ _ _ _ _ _) as [dt|e0] eqn:Hnew; cbn [bind].
    + destruct (EmailUtils.tm_offset t) as [off|]; cbn [bind]; [|discriminate].
      unfold DateTime.timedelta, DateTime.sub.
      repeat match goal with
             | |- context [if ?b then _ else _] => destruct b; cbn [bind]
             end; try discriminate; intros [= <-]; now right.
    + intros [= <-]. revert Hnew. unfold DateTime.new.
      repeat match goal with
             | |- (if ?b then _ else _) = _ -> _ => destruct b
             end; try discriminate; intros [= <-];
        solve [now right | left; eexists; reflexivity].
  - intros [= <-]. left. now eexists.
Qed.

Lemma getDates_exceptions_witness :
  getDates "Fri, 31 Dec 9999 23:59:59 -0100" = Raise OverflowError
  /\ ((exists msg, OverflowError = ValueError msg)
      \/ OverflowError = OverflowError).
Proof.
  assert (H : getDates "Fri, 31 Dec 9999 23:59:59 -0100" = Raise OverflowError)
    by (vm_compute; reflexivity).
  split; [exact H | exact (getDates_exceptions _ _ H)].
Defined.

(** C5. A record with the contacts [cs] is expanded into one row per
    contact, in order; the rows carry the contacts in the added column and
    the same values in every other column. *)
Theorem C5_row_expansion (header_text : string -> result string)
    (before after : list Row) (r : Row)
    (out_before out_after : list (Assigned cell))
    (labels date subject : cell) (cs : list string) :
  main header_text before = Ok out_before ->
  main header_text after = Ok out_after ->
  direction (X_Gmail_Labels r) = Ok labels ->
  date_cell (Date r) = Ok date ->
  decode_subject header_text (Subject r) = Ok subject ->
  contacts r = Ok cs ->
  exists rows : list (Assigned cell),
    main header_text (before ++ r :: after)
    = Ok (out_before ++ rows ++ out_after)
    /\ List.length rows = List.length cs
    /\ map Activity_Assigned_To rows = map Some cs
    /\ (forall row1 row2 : Assigned cell,
           In row1 rows -> In row2 rows -> fields row1 = fields row2)
    /\ Forall (fun row => fields row = normalized r labels date subject) rows.
Proof.
  intros Hb Ha Hl Hd Hs Hc.
  exists (expansion r labels date subject cs).
  assert (HF : Forall (fun row => fields row = normalized r labels date subject)
                 (expansion r labels date subject cs)).
  { unfold expansion. apply Forall_forall. intros row Hin.
    apply in_map_iff in Hin as (c & <- & _). reflexivity. }
  split; [|split; [|split; [|split]]].
  - apply main_record; try assumption. now apply main_single.
  - unfold expansion. apply length_map.
  - unfold expansion. rewrite map_map. reflexivity.
  - intros row1 row2 H1 H2. rewrite Forall_forall in HF.
    now rewrite (HF _ H1), (HF _ H2).
  - exact HF.
Qed.

Lemma C5_witness :
  let r := mk_row (Some "Inbox") (Some "Fri, 15 Dec 2023 16:40:42 +0000")
             (Some "Ann <a@x.com>") (Some "b@y.org") (Some "Cy <c@z.net>")
             (Some "Hello") (Some "text") in
  contacts r = Ok ["a@x.com"; "b@y.org"; "c@z.net"]
  /\ exists rows : list (Assigned cell),
      main (fun s => Ok s) ([] ++ r :: []) = Ok ([] ++ rows ++ [])
      /\ List.length rows = 3
      /\ map Activity_Assigned_To rows
         = map Some ["a@x.com"; "b@y.org"; "c@z.net"]
      /\ (forall row1 row2 : Assigned cell,
             In row1 rows -> In row2 rows -> fields row1 = fields row2)
      /\ Forall (fun row =>
                   fields row
                   = normalized r (Some "Incoming") (Some "1702658442000")
                       (Some "Hello")) rows.
Proof.
  intros r. split; [reflexivity|].
  apply (C5_row_expansion (fun s => Ok s) [] [] r [] []
           (Some "Incoming") (Some "1702658442000") (Some "Hello")
           ["a@x.com"; "b@y.org"; "c@z.net"]);
    vm_compute; reflexivity.
Defined.

(** C6. The label of a record is [Incoming] exactly when its labels hold
    the substring [Inbox], and [Outgoing] for every other string. *)
Theorem C6_direction (labels : string) :
  (occurs_in "Inbox" labels /\ direction (Some labels) = Ok (Some "Incoming"))
  \/ (~ occurs_in "Inbox" labels
      /\ direction (Some labels) = Ok (Some "Outgoing")).
Proof.
  unfold direction.
  destruct (Py.contains "Inbox" labels) eqn:H.
  - left. split; [now apply contains_occurs | reflexivity].
  - right. split; [|reflexivity].
    intros Hocc. apply contains_occurs in Hocc. congruence.
Qed.

(** C7, on the code. A record whose only addresses are of the own domain,
    and whose [To] holds text but no address, is not dropped: the empty
    piece that [split] finds in the empty string becomes a contact, and
    the record leaves one row with an empty contact. *)
Theorem C7_addressless_to_keeps_record :
  let r := mk_row (Some "Sent") (Some "Fri, 15 Dec 2023 16:40:42 +0000")
             (Some "X <x@insidemaps.com>") (Some "undisclosed-recipients:;")
             None (Some "Hello") None in
  Forall (fun a => Py.contains "insidemaps" a = true)
    (Re.findall email_pattern "X <x@insidemaps.com>"
     ++ Re.findall email_pattern "undisclosed-recipients:;")
  /\ contacts r = Ok [""]
  /\ main (fun s => Ok s) [r]
     = Ok [mk_assigned
             (mk_row (Some "Outgoing") (Some "1702658442000")
                (Some "x@insidemaps.com") (Some "") None (Some "Hello") None)
             (Some "")].
Proof.
  intros r. split; [|split; vm_compute; reflexivity].
  vm_compute. repeat constructor.
Qed.

(** A record in which [from], [to] and, when present, [cc] each hold an
    address, and every address names the own domain, has no contact and
    leaves no row. *)
Theorem own_domain_record_dropped (header_text : string -> result string)
    (before after : list Row) (r : Row)
    (out_before out_after : list (Assigned cell))
    (labels date subject : cell) (from to : string) :
  main header_text before = Ok out_before ->
  main header_text after = Ok out_after ->
  direction (X_Gmail_Labels r) = Ok labels ->
  date_cell (Date r) = Ok date ->
  decode_subject header_text (Subject r) = Ok subject ->
  From r = Some from -> To r = Some to ->
  Re.findall email_pattern from <> [] ->
  Re.findall email_pattern to <> [] ->
  (forall cc, Cc r = Some cc -> Re.findall email_pattern cc <> []) ->
  Forall (fun a => Py.contains "insidemaps" a = true)
    (Re.findall email_pattern from) ->
  Forall (fun a => Py.contains "insidemaps" a = true)
    (Re.findall email_pattern to) ->
  (forall cc, Cc r = Some cc ->
              Forall (fun a => Py.contains "insidemaps" a = true)
                (Re.findall email_pattern cc)) ->
  contacts r = Ok []
  /\ main header_text (before ++ r :: after) = Ok (out_before ++ out_after).
Proof.
  intros Hb Ha Hl Hd Hs HF HT Hf Ht Hc Mf Mt Mc.
  assert (E : contacts r = Ok []).
  { unfold contacts. rewrite HF, HT, contacts_of_raw. unfold contacts_of.
    rewrite (existsb_marker _ true Hf Mf), (filter_external_marker _ Ht Mt).
    destruct (Cc r) as [cc|]; cbn [option_map]; [|reflexivity].
    now rewrite (filter_external_marker _ (Hc cc eq_refl) (Mc cc eq_refl)). }
  split; [exact E|].
  rewrite (main_record header_text before after r out_before out_after []);
    try assumption; [reflexivity|].
  now rewrite (main_single header_text r labels date subject []).
Qed.

Lemma own_domain_record_dropped_witness :
  main (fun s => Ok s)
    ([] ++ mk_row (Some "Sent") (Some "Fri, 15 Dec 2023 16:40:42 +0000")
             (Some "X <x@insidemaps.com>")
             (Some "y@insidemaps.com, Z <z@insidemaps.com>")
             (Some "w@insidemaps.com") (Some "Hello") None :: [])
  = Ok ([] ++ []).
Proof.
  refine (proj2 (own_domain_record_dropped (fun s => Ok s) [] [] _ [] []
                   (Some "Outgoing") (Some "1702658442000") (Some "Hello")
                   "X <x@insidemaps.com>"
                   "y@insidemaps.com, Z <z@insidemaps.com>"
                   _ _ _ _ _ _ _ _ _ _ _ _ _));
    try (vm_compute; reflexivity); try (vm_compute; discriminate).
  - intros cc [= <-]. vm_compute. discriminate.
  - vm_compute. repeat constructor.
  - vm_compute. repeat constructor.
  - intros cc [= <-]. vm_compute. repeat constructor.
Defined.

(** C8. Extraction returns a [;]-joined sequence of addresses unchanged; so
    it does a@b.com;c@d.com, and extracting twice is extracting once. *)
Theorem C8_extraction_idempotent :
  (forall addrs : list string,
      Forall address addrs ->
      extractEmails (Some (Py.join ";" addrs)) = Some (Py.join ";" addrs))
  /\ extractEmails (Some "a@b.com;c@d.com") = Some "a@b.com;c@d.com"
  /\ (forall s : string,
         extractEmails (extractEmails (Some s)) = extractEmails (Some s)).
Proof.
  assert (H : forall addrs, Forall address addrs ->
                extractEmails (Some (Py.join ";" addrs))
                = Some (Py.join ";" addrs)).
  { intros addrs Ha. cbn [extractEmails]. now rewrite findall_join. }
  split; [exact H | split; [reflexivity|]].
  intros s. cbn [extractEmails]. apply H, scan_sound.
Qed.

Lemma C8_witness :
  Forall address ["john@example.com"; "c@d.co.uk"]
  /\ extractEmails (Some (Py.join ";" ["john@example.com"; "c@d.co.uk"]))
     = Some (Py.join ";" ["john@example.com"; "c@d.co.uk"]).
Proof.
  assert (H : Forall address ["john@example.com"; "c@d.co.uk"]).
  { repeat constructor.
    - apply (address_intro "john" "example" "com"); (discriminate || reflexivity).
    - apply (address_intro "c" "d" "co.uk"); (discriminate || reflexivity). }
  split; [exact H | exact (proj1 C8_extraction_idempotent _ H)].
Defined.

(** C9. A record with a [To] whose [From] holds no address has the empty
    string as its first contact, and leaves a row with that contact. *)
Theorem C9_empty_from_is_a_contact (header_text : string -> result string)
    (before after : list Row) (r : Row)
    (out_before out_after : list (Assigned cell))
    (labels date subject : cell) (from to : string) :
  main header_text before = Ok out_before ->
  main header_text after = Ok out_after ->
  direction (X_Gmail_Labels r) = Ok labels ->
  date_cell (Date r) = Ok date ->
  decode_subject header_text (Subject r) = Ok subject ->
  From r = Some from -> To r = Some to ->
  Re.findall email_pattern from = [] ->
  extractEmails (From r) = Some ""
  /\ Py.contains "insidemaps" "" = false
  /\ exists rest : list string,
      contacts r = Ok ("" :: rest)
      /\ main header_text (before ++ r :: after)
         = Ok (out_before
               ++ mk_assigned (normalized r labels date subject) (Some "")
                  :: expansion r labels date subject rest
               ++ out_after).
Proof.
  intros Hb Ha Hl Hd Hs HF HT Hf.
  split; [rewrite HF; cbn [extractEmails]; now rewrite Hf|].
  split; [reflexivity|].
  assert (E : exists rest, contacts r = Ok ("" :: rest)).
  { unfold contacts. rewrite HF, HT, contacts_of_raw. unfold contacts_of.
    rewrite Hf. cbn [existsb]. eexists. reflexivity. }
  destruct E as [rest E]. exists rest. split; [exact E|].
  rewrite (main_record header_text before after r out_before out_after
             (expansion r labels date subject ("" :: rest)));
    try assumption; [reflexivity|].
  now apply main_single.
Qed.

Lemma C9_witness :
  exists rest : list string,
    contacts (mk_row (Some "Inbox") (Some "Fri, 15 Dec 2023 16:40:42 +0000")
                (Some "MAILER-DAEMON") (Some "me@insidemaps.com") None
                (Some "Undelivered") None)
    = Ok ("" :: rest)
    /\ main (fun s => Ok s)
         ([] ++ mk_row (Some "Inbox") (Some "Fri, 15 Dec 2023 16:40:42 +0000")
                  (Some "MAILER-DAEMON") (Some "me@insidemaps.com") None
                  (Some "Undelivered") None :: [])
       = Ok ([] ++ mk_assigned
                     (normalized
                        (mk_row (Some "Inbox")
                           (Some "Fri, 15 Dec 2023 16:40:42 +0000")
                           (Some "MAILER-DAEMON") (Some "me@insidemaps.com")
                           None (Some "Undelivered") None)
                        (Some "Incoming") (Some "1702658442000")
                        (Some "Undelivered"))
                     (Some "")
                   :: expansion
                        (mk_row (Some "Inbox")
                           (Some "Fri, 15 Dec 2023 16:40:42 +0000")
                           (Some "MAILER-DAEMON") (Some "me@insidemaps.com")
                           None (Some "Undelivered") None)
                        (Some "Incoming") (Some "1702658442000")
                        (Some "Undelivered") rest
                   ++ []).
Proof.
  refine (proj2 (proj2 (C9_empty_from_is_a_contact (fun s => Ok s) [] [] _ [] []
                          (Some "Incoming") (Some "1702658442000")
                          (Some "Undelivered") "MAILER-DAEMON"
                          "me@insidemaps.com" _ _ _ _ _ _ _ _)));
    vm_compute; reflexivity.
Defined.

(** C10. The normalised [from] is not split: when the [From] of a record
    with a [To] holds two or more addresses, none of the own domain, the
    [;]-joined string of all of them is one contact, the first, and one row
    carries it; the addresses of [To] and [Cc] are contacts one by one. *)
Theorem C10_from_is_not_split (header_text : string -> result string)
    (before after : list Row) (r : Row)
    (out_before out_after : list (Assigned cell))
    (labels date subject : cell) (from to : string) :
  main header_text before = Ok out_before ->
  main header_text after = Ok out_after ->
  direction (X_Gmail_Labels r) = Ok labels ->
  date_cell (Date r) = Ok date ->
  decode_subject header_text (Subject r) = Ok subject ->
  From r = Some from -> To r = Some to ->
  2 <= List.length (Re.findall email_pattern from) ->
  Forall (fun a => Py.contains "insidemaps" a = false)
    (Re.findall email_pattern from) ->
  let joined := Py.join ";" (Re.findall email_pattern from) in
  let others :=
    filter external (pieces (Re.findall email_pattern to))
    ++ match Cc r with
       | Some cc => filter external (pieces (Re.findall email_pattern cc))
       | None => []
       end in
  contacts r = Ok (joined :: others)
  /\ main header_text (before ++ r :: after)
     = Ok (out_before
           ++ mk_assigned (normalized r labels date subject) (Some joined)
              :: expansion r labels date subject others
           ++ out_after).
Proof.
  intros Hb Ha Hl Hd Hs HF HT Hn Hm joined others.
  assert (E : contacts r = Ok (joined :: others)).
  { unfold contacts. rewrite HF, HT, contacts_of_raw. unfold contacts_of.
    rewrite (existsb_marker _ false); [| |exact Hm].
    - subst joined others. destruct (Cc r); reflexivity.
    - intros E0. rewrite E0 in Hn. simpl in Hn. lia. }
  split; [exact E|].
  rewrite (main_record header_text before after r out_before out_after
             (expansion r labels date subject (joined :: others)));
    try assumption; [reflexivity|].
  now apply main_single.
Qed.

Lemma C10_witness :
  let r := mk_row (Some "Inbox") (Some "Fri, 15 Dec 2023 16:40:42 +0000")
             (Some "Ann <a@x.com>, Bob <b@y.com>")
             (Some "c@z.net, me@insidemaps.com, d@w.org") None
             (Some "Hello") None in
  contacts r = Ok ["a@x.com;b@y.com"; "c@z.net"; "d@w.org"]
  /\ main (fun s => Ok s) ([] ++ r :: [])
     = Ok ([] ++ mk_assigned
                   (normalized r (Some "Incoming") (Some "1702658442000")
                      (Some "Hello"))
                   (Some "a@x.com;b@y.com")
                 :: expansion r (Some "Incoming") (Some "1702658442000")
                      (Some "Hello") ["c@z.net"; "d@w.org"]
                 ++ []).
Proof.
  intros r.
  refine (C10_from_is_not_split (fun s => Ok s) [] [] r [] []
            (Some "Incoming") (Some "1702658442000") (Some "Hello")
            "Ann <a@x.com>, Bob <b@y.com>"
            "c@z.net, me@insidemaps.com, d@w.org" _ _ _ _ _ _ _ _ _);
    try (vm_compute; reflexivity).
  vm_compute. repeat constructor.
Defined.

(** ** Further properties of the code

    *** The run, record by record *)

Section RowWise.

Variable header_text : string -> result string.

Lemma mapM_app_inv {A B : Type} (f : A -> result B) (l1 l2 : list A)
    (x : list B) :
  mapM f (l1 ++ l2) = Ok x ->
  exists a b, mapM f l1 = Ok a /\ mapM f l2 = Ok b /\ x = a ++ b.
Proof.
  rewrite mapM_app. destruct (mapM f l1) as [a|]; [|discriminate].
  destruct (mapM f l2) as [b|]; [|discriminate].
  intros [= <-]. now exists a, b.
Qed.

(** A run that succeeds on a table succeeds on its parts. *)
Lemma main_app_inv (l1 l2 : list Row) (o : list (Assigned cell)) :
  main header_text (l1 ++ l2) = Ok o ->
  exists o1 o2, main header_text l1 = Ok o1 /\ main header_text l2 = Ok o2
                /\ o = o1 ++ o2.
Proof.
  unfold main, Pd.map_column. intros H.
  repeat match type of H with
         | bind (mapM ?f (_ ++ _)) _ = Ok _ =>
             let a := fresh "a" in
             let b := fresh "b" in
             let Ea := fresh "Ea" in
             let Eb := fresh "Eb" in
             destruct (mapM f (_ ++ _)) as [x|] eqn:E in H;
             [|discriminate H];
             apply mapM_app_inv in E as (a & b & Ea & Eb & ->);
             cbn [bind] in H; rewrite Ea, Eb; cbn [bind]
         end.
  unfold Pd.explode in *. rewrite flat_map_app in H.
  match type of H with
  | bind (mapM ?f (_ ++ _)) _ = Ok _ =>
      destruct (mapM f (_ ++ _)) as [x|] eqn:E in H; [|discriminate H];
      apply mapM_app_inv in E as (a' & b' & Ea' & Eb' & ->);
      cbn [bind] in H; rewrite Ea', Eb'; cbn [bind]
  end.
  injection H as <-. rewrite filter_app. now eexists _, _.
Qed.

Lemma main_nil : main header_text [] = Ok [].
Proof. reflexivity. Qed.

(** What a run on one record that succeeds has done. *)
Lemma main_single_inv (r : Row) (o : list (Assigned cell)) :
  main header_text [r] = Ok o ->
  exists labels date subject cs,
    direction (X_Gmail_Labels r) = Ok labels
    /\ date_cell (Date r) = Ok date
    /\ decode_subject header_text (Subject r) = Ok subject
    /\ contacts r = Ok cs
    /\ o = expansion r labels date subject cs.
Proof.
  destruct r as [l d f t c sj b]. unfold main, Pd.map_column, contacts.
  row_simpl.
  destruct (direction l) as [labels|] eqn:Hl; [|discriminate]. row_simpl.
  destruct (date_cell d) as [date|] eqn:Hd; [|discriminate]. row_simpl.
  destruct (getNonDomainEmails _ _ _) as [cs|] eqn:Hc; [|discriminate].
  cbn [bind]. intros H.
  assert (Hs : exists subject, decode_subject header_text sj = Ok subject).
  { revert H. unfold Pd.explode, Pd.explode_row. cbn [flat_map]. row_simpl.
    rewrite app_nil_r.
    destruct cs; cbn [map]; row_simpl;
      destruct (decode_subject header_text sj) as [v|]; cbn [bind];
      intros H; (discriminate H || now eexists). }
  destruct Hs as [subject Hs].
  exists labels, date, subject, cs. repeat (split; [reflexivity || assumption|]).
  pose proof (main_single header_text (mk_row l d f t c sj b)
                labels date subject cs Hl Hd Hs Hc) as E.
  unfold main, Pd.map_column in E. revert E. row_simpl.
  rewrite Hl. row_simpl. rewrite Hd. row_simpl. rewrite Hc. cbn [bind].
  rewrite H. now intros [= ->].
Qed.

Lemma main_rowwise_ok (table : list Row) (out : list (Assigned cell)) :
  main header_text table = Ok out
  <-> exists outs : list (list (Assigned cell)),
        Forall2 (fun r o => main header_text [r] = Ok o) table outs
        /\ out = List.concat outs.
Proof.
  revert out. induction table as [|r table IH]; intros out.
  - rewrite main_nil. split.
    + intros [= <-]. exists []. split; [constructor | reflexivity].
    + intros (outs & H & ->). inversion H. reflexivity.
  - change (r :: table) with ([r] ++ table). split.
    + intros H. apply main_app_inv in H as (o1 & o2 & H1 & H2 & ->).
      apply IH in H2 as (outs & HF & ->).
      exists (o1 :: outs). split; [now constructor | reflexivity].
    + intros (outs & HF & ->). inversion HF as [|? o ? outs' H1 H2]; subst.
      cbn [List.concat]. apply main_app; [exact H1|].
      apply IH. now exists outs'.
Qed.

(** The run on a table succeeds exactly when the run on each of its
    records alone does, and then its rows are theirs, record after record;
    so the run stops exactly when the run on one record alone would. *)
Theorem main_rowwise (table : list Row) :
  (forall out : list (Assigned cell),
      main header_text table = Ok out
      <-> exists outs : list (list (Assigned cell)),
            Forall2 (fun r o => main header_text [r] = Ok o) table outs
            /\ out = List.concat outs)
  /\ ((exists e, main header_text table = Raise e)
      <-> exists r, In r table /\ exists e, main header_text [r] = Raise e).
Proof.
  split; [exact (main_rowwise_ok table)|]. split.
  - intros [e He]. revert e He.
    induction table as [|r table IH]; intros e He; [discriminate|].
    destruct (main header_text [r]) as [o1|e1] eqn:H1.
    + destruct (main header_text table) as [o2|e2] eqn:H2.
      * change (r :: table) with ([r] ++ table) in He.
        rewrite (main_app header_text _ _ _ _ H1 H2) in He. discriminate.
      * destruct (IH e2 eq_refl) as (r' & Hin & Hr').
        exists r'. split; [now right | exact Hr'].
    + exists r. split; [now left | now exists e1].
  - intros (r & Hin & e & He).
    destruct (main header_text table) as [out|e'] eqn:H; [|now exists e'].
    apply main_rowwise_ok in H as (outs & HF & _). exfalso.
    induction HF as [|x o l outs Hx HF IH]; [destruct Hin|].
    destruct Hin as [-> | Hin]; [congruence | now apply IH].
Qed.

End RowWise.

(** *** What the contacts and the rows are *)

Lemma rstrip_with_idem (p : ascii -> bool) (s : string) :
  Py.rstrip_with p (Py.rstrip_with p s) = Py.rstrip_with p s.
Proof.
  induction s as [|c s IH]; [reflexivity|]. cbn [Py.rstrip_with].
  destruct (Py.rstrip_with p s) as [|c' r] eqn:E.
  - destruct (p c) eqn:Hc; [reflexivity|]. cbn [Py.rstrip_with]. now rewrite Hc.
  - cbn [Py.rstrip_with] in *. now rewrite IH.
Qed.

(** No contact that [getNonDomainEmails] returns holds the marker or ends
    in white space, whatever the cells it is given. *)
Theorem getNonDomainEmails_external (fromData toData ccData : cell)
    (l : list string) :
  getNonDomainEmails fromData toData ccData = Ok l ->
  Forall (fun a => Py.contains "insidemaps" a = false /\ Py.rstrip a = a) l.
Proof.
  destruct fromData as [f|]; [|discriminate].
  destruct toData as [t|]; [|discriminate].
  rewrite getNonDomainEmails_spec. intros [= <-].
  unfold assignedContacts. apply Forall_forall. intros a Ha.
  apply in_map_iff in Ha as (x & <- & Hx).
  assert (Hext : external x = true).
  { unfold candidates in Hx. repeat rewrite in_app_iff in Hx.
    destruct Hx as [Hx | [Hx | Hx]].
    - destruct (external f) eqn:E; [|destruct Hx].
      destruct Hx as [<- | []]. exact E.
    - now apply filter_In in Hx.
    - destruct ccData; [now apply filter_In in Hx | destruct Hx]. }
  split.
  - rewrite <- external_rstrip in Hext. unfold external in Hext.
    now apply negb_true_iff in Hext.
  - apply rstrip_with_idem.
Qed.

Lemma getNonDomainEmails_external_witness :
  getNonDomainEmails (Some "a@insidemaps.com ") (Some "b@x.com  ;c@y.org")
    (Some " d@insidemaps.com;e@z.net ")
  = Ok ["b@x.com"; "c@y.org"; "e@z.net"]
  /\ Forall (fun a => Py.contains "insidemaps" a = false /\ Py.rstrip a = a)
       ["b@x.com"; "c@y.org"; "e@z.net"].
Proof.
  assert (H : getNonDomainEmails (Some "a@insidemaps.com ")
                (Some "b@x.com  ;c@y.org") (Some " d@insidemaps.com;e@z.net ")
              = Ok ["b@x.com"; "c@y.org"; "e@z.net"]) by reflexivity.
  split; [exact H | exact (getNonDomainEmails_external _ _ _ _ H)].
Defined.

(** Every row the run writes comes from a record of the table: it carries
    that record's body, its extracted addresses, one of the two labels, the
    time stamp of its date and its decoded subject, and a contact that is
    set, does not hold the marker and does not end in white space. *)
Theorem main_output_rows (header_text : string -> result string)
    (table : list Row) (out : list (Assigned cell)) (row : Assigned cell) :
  main header_text table = Ok out -> In row out ->
  exists (r : Row) (labels date subject contact : string),
    In r table
    /\ fields row = normalized r (Some labels) (Some date) (Some subject)
    /\ (labels = "Incoming" \/ labels = "Outgoing")
    /\ (exists d, Date r = Some d /\ getDates d = Ok date)
    /\ (exists sj, Subject r = Some sj /\ header_text sj = Ok subject)
    /\ Activity_Assigned_To row = Some contact
    /\ Py.contains "insidemaps" contact = false
    /\ Py.rstrip contact = contact.
Proof.
  intros H Hin. apply main_rowwise_ok in H as (outs & HF & ->).
  apply in_concat in Hin as (o & Ho & Hrow).
  assert (Hr : exists r, In r table /\ main header_text [r] = Ok o).
  { clear Hrow. induction HF as [|x y l l' Hxy HF IH]; [destruct Ho|].
    destruct Ho as [<- | Ho].
    - exists x. split; [now left | exact Hxy].
    - destruct (IH Ho) as (r & Hr & Hm). exists r. split; [now right | exact Hm]. }
  destruct Hr as (r & Hr & Hm).
  apply main_single_inv in Hm as (labels & date & subject & cs
                                  & Hl & Hd & Hs & Hc & ->).
  unfold expansion in Hrow. apply in_map_iff in Hrow as (c & <- & Hcin).
  unfold direction in Hl. destruct (X_Gmail_Labels r) as [lb|]; [|discriminate].
  injection Hl as <-.
  unfold date_cell in Hd. destruct (Date r) as [d|] eqn:HD; [|discriminate].
  destruct (getDates d) as [ms|] eqn:Hms; [|discriminate]. injection Hd as <-.
  unfold decode_subject in Hs. destruct (Subject r) as [sj|] eqn:HS; [|discriminate].
  destruct (header_text sj) as [sub|] eqn:Hsub; [|discriminate].
  injection Hs as <-.
  pose proof (getNonDomainEmails_external _ _ _ _ Hc) as Hall.
  rewrite Forall_forall in Hall. destruct (Hall c Hcin) as [Hm1 Hm2].
  exists r, (if Py.contains "Inbox" lb then "Incoming" else "Outgoing"),
    ms, sub, c.
  split; [exact Hr|]. split; [reflexivity|].
  split; [destruct (Py.contains "Inbox" lb); auto|].
  split; [now exists d|]. split; [now exists sj|].
  split; [reflexivity|]. split; assumption.
Qed.

Lemma main_output_rows_witness :
  exists (r : Row) (labels date subject contact : string),
    In r [mk_row (Some "Inbox") (Some "Fri, 15 Dec 2023 16:40:42 +0000")
            (Some "Ann <a@x.com>") (Some "me@insidemaps.com") None
            (Some "Hello") (Some "text")]
    /\ fields (mk_assigned
                 (mk_row (Some "Incoming") (Some "1702658442000")
                    (Some "a@x.com") (Some "me@insidemaps.com") None
                    (Some "Hello") (Some "text")) (Some "a@x.com"))
       = normalized r (Some labels) (Some date) (Some subject)
    /\ (labels = "Incoming" \/ labels = "Outgoing")
    /\ (exists d, Date r = Some d /\ getDates d = Ok date)
    /\ (exists sj, Subject r = Some sj /\ (fun s => Ok s) sj = Ok subject)
    /\ Activity_Assigned_To
         (mk_assigned
            (mk_row (Some "Incoming") (Some "1702658442000")
               (Some "a@x.com") (Some "me@insidemaps.com") None
               (Some "Hello") (Some "text")) (Some "a@x.com"))
       = Some contact
    /\ Py.contains "insidemaps" contact = false
    /\ Py.rstrip contact = contact.
Proof.
  refine (main_output_rows (fun s => Ok s) _ _ _ _ _).
  - vm_compute. reflexivity.
  - now left.
Defined.

(** *** What extraction finds *)

Section ExtractionFacts.

Local Open Scope string_scope.

Ltac string_assoc :=
  repeat first [rewrite append_assoc | progress simpl]; reflexivity.

(** The longest prefix of class characters. *)
Lemma class_prefix (p : ascii -> bool) (z : string) :
  exists z1 z2, z = z1 ++ z2 /\ all_chars p z1 = true /\ stops p z2.
Proof.
  induction z as [|c z IH]; [now exists "", ""|].
  destruct (p c) eqn:Hc.
  - destruct IH as (z1 & z2 & -> & H1 & H2).
    exists (String c z1), z2. simpl. rewrite Hc, H1. now repeat split.
  - exists "", (String c z). now repeat split.
Qed.

(** Where the pattern matches a text it matches every longer text. *)
Lemma match_here_longer (x y : string) (n : nat) :
  Re.match_here email_pattern x = Some n ->
  exists n', Re.match_here email_pattern (x ++ y) = Some n'.
Proof.
  intros H. apply match_here_sound in H as (a & r & -> & Ha & _).
  destruct (class_prefix tail_char (r ++ y)) as (z1 & z2 & E & H1 & H2).
  destruct Ha as [l d t Hl Hlc Hd Hdc Ht Htc].
  assert (Ha' : address (l ++ "@" ++ d ++ "." ++ (t ++ z1))).
  { constructor; try assumption.
    - destruct t; [congruence | discriminate].
    - now rewrite all_chars_append, Htc, H1. }
  exists (String.length (l ++ "@" ++ d ++ "." ++ (t ++ z1))).
  rewrite <- (match_address _ z2 Ha' H2). f_equal.
  rewrite (append_assoc _ r y), E.
  string_assoc.
Qed.

Lemma match_here_at (s : string) (n : nat) :
  Re.match_here email_pattern s = Some n ->
  exists l z, s = l ++ String "@" z /\ all_chars local_char l = true.
Proof.
  intros H. apply match_here_sound in H as (a & r & -> & Ha & _).
  destruct Ha as [l d t _ Hlc _ _ _ _].
  exists l, (d ++ "." ++ t ++ r). split; [|exact Hlc].
  string_assoc.
Qed.

(** No match starts in a text without an at sign that a character which
    is neither one nor of the local part ends. *)
Lemma no_match_before (x y : string) (c : ascii) :
  all_chars not_at x = true -> local_char c = false -> not_at c = true ->
  Re.match_here email_pattern (x ++ String c y) = None.
Proof.
  intros Hx Hc Hc'.
  destruct (Re.match_here email_pattern (x ++ String c y)) as [n|] eqn:E;
    [|reflexivity].
  exfalso. apply match_here_at in E as (l & z & E & Hl).
  revert l E Hl. induction x as [|d x IH]; intros [|c0 l] E Hl; simpl in *.
  - injection E as -> _. discriminate Hc'.
  - injection E as -> _. apply andb_true_iff in Hl as [Hl _]. congruence.
  - injection E as -> _. discriminate Hx.
  - injection E as _ E. apply andb_true_iff in Hx as [_ Hx].
    apply andb_true_iff in Hl as [_ Hl]. exact (IH Hx l E Hl).
Qed.

Lemma scan_skip_prefix (x y : string) (c : ascii) :
  all_chars not_at x = true -> local_char c = false -> not_at c = true ->
  Re.scan email_pattern 0 (x ++ String c y) = Re.scan email_pattern 0 y.
Proof.
  intros Hx Hc Hc'. induction x as [|d x IH].
  - pose proof (no_match_before "" y c Hx Hc Hc') as E.
    change ("" ++ String c y) with (String c y) in *. cbn [Re.scan].
    now rewrite E.
  - change (String d x ++ String c y) with (String d (x ++ String c y)).
    cbn [Re.scan].
    change (String d (x ++ String c y)) with (String d x ++ String c y).
    rewrite (no_match_before (String d x) y c Hx Hc Hc').
    apply IH. simpl in Hx. now apply andb_true_iff in Hx.
Qed.

Lemma scan_no_at (x : string) :
  all_chars not_at x = true -> Re.scan email_pattern 0 x = [].
Proof.
  intros Hx. induction x as [|d x IH]; [reflexivity|]. cbn [Re.scan].
  destruct (Re.match_here email_pattern (String d x)) as [n|] eqn:E.
  - exfalso. apply match_here_at in E as (l & z & E & _).
    rewrite E, all_chars_append in Hx. simpl in Hx.
    now rewrite andb_false_r in Hx.
  - apply IH. simpl in Hx. now apply andb_true_iff in Hx.
Qed.

Lemma weave_cons (c : ascii) (g : string) (ps : list (string * string)) :
  weave (String c g) ps = String c (weave g ps).
Proof. destruct ps as [|[m g'] ps]; reflexivity. Qed.

Lemma weave_gap (g : string) (ps : list (string * string)) :
  weave g ps = g ++ weave "" ps.
Proof.
  destruct ps as [|[m g'] ps]; simpl; [now rewrite append_empty_r | reflexivity].
Qed.

Lemma findall_partition_bounded (n : nat) (s : string) :
  String.length s <= n ->
  exists (gap : string) (parts : list (string * string)),
    s = weave gap parts
    /\ map fst parts = Re.findall email_pattern s
    /\ Forall (fun g => Re.findall email_pattern g = [])
         (gap :: map snd parts).
Proof.
  unfold Re.findall. revert s. induction n as [|n IH]; intros s Hn.
  - destruct s; [|simpl in Hn; lia]. exists "", []. repeat split. now constructor.
  - destruct s as [|c s]; [exists "", []; repeat split; now constructor|].
    destruct (Re.match_here email_pattern (String c s)) as [len|] eqn:E.
    + pose proof E as E'.
      apply match_here_sound in E' as (a & r & Es & Ha & ->).
      assert (Hr : String.length r <= n).
      { pose proof (f_equal String.length Es) as El.
        rewrite length_append in El.
        pose proof (address_nonempty a Ha). simpl in Hn, El.
        destruct a; [congruence | simpl in El; lia]. }
      destruct (IH r Hr) as (g & ps & Er & Hm & Hg).
      rewrite Es in E. rewrite Es.
      exists "", ((a, g) :: ps). split; [|split].
      * simpl. now rewrite <- Er.
      * rewrite scan_match; [|now apply address_nonempty | exact E].
        cbn [map fst]. now rewrite Hm.
      * constructor; [reflexivity | exact Hg].
    + assert (Hs : String.length s <= n) by (simpl in Hn; lia).
      destruct (IH s Hs) as (g & ps & Er & Hm & Hg).
      exists (String c g), ps. split; [|split].
      * rewrite weave_cons. now rewrite <- Er.
      * cbn [Re.scan]. now rewrite E.
      * inversion Hg as [|? ? Hg0 Hgs]; subst. constructor; [|exact Hgs].
        cbn [Re.scan].
        destruct (Re.match_here email_pattern (String c g)) as [k|] eqn:Eg;
          [|exact Hg0].
        exfalso.
        destruct (match_here_longer _ (weave "" ps) _ Eg) as [k' Hk'].
        rewrite (weave_gap g ps) in E.
        change (String c (g ++ weave "" ps))
          with (String c g ++ weave "" ps) in E.
        congruence.
Qed.

(** The addresses extraction finds lie in the text one after the other,
    without overlap, each in full an address, and no part of the text
    between them, before the first or after the last holds an address. *)
Theorem findall_partition (s : string) :
  exists (gap : string) (parts : list (string * string)),
    s = weave gap parts
    /\ map fst parts = Re.findall email_pattern s
    /\ Forall address (Re.findall email_pattern s)
    /\ Forall (fun g => Re.findall email_pattern g = [])
         (gap :: map snd parts)
    /\ extractEmails (Some s) = Some (Py.join ";" (map fst parts)).
Proof.
  destruct (findall_partition_bounded (String.length s) s (le_n _))
    as (g & ps & E & Hm & Hg).
  exists g, ps. repeat (split; try assumption).
  - apply scan_sound.
  - cbn [extractEmails]. now rewrite Hm.
Qed.

(** A text without an at sign holds no address; and a recipient list of
    display names without at signs, each with its address in angle
    brackets, is reduced to the addresses, in order. *)
Theorem extract_mailboxes :
  (forall s : string,
      all_chars not_at s = true -> extractEmails (Some s) = Some "")
  /\ (forall l : list (string * string),
         Forall (fun e => all_chars not_at (fst e) = true /\ address (snd e)) l ->
         extractEmails (Some (Py.join ", " (map mailbox l)))
         = Some (Py.join ";" (map snd l))).
Proof.
  split.
  - intros s Hs. cbn [extractEmails]. unfold Re.findall.
    now rewrite scan_no_at.
  - intros l Hl. cbn [extractEmails]. f_equal. f_equal. unfold Re.findall.
    assert (G : forall pre,
               all_chars not_at pre = true ->
               Re.scan email_pattern 0 (pre ++ Py.join ", " (map mailbox l))
               = map snd l).
    { induction Hl as [|[n a] l [Hn Ha] Hl IH]; intros pre Hpre.
      - cbn [map Py.join concat]. rewrite append_empty_r.
        now apply scan_no_at.
      - cbn [fst snd] in *. cbn [map snd].
        assert (E : exists tail,
                   Py.join ", " (mailbox (n, a) :: map mailbox l)
                   = n ++ " " ++ String "<" (a ++ String ">" tail)
                   /\ Re.scan email_pattern 0 (String ">" tail) = map snd l).
        { destruct l as [|e l].
          - exists "". split; [|reflexivity].
            unfold Py.join, mailbox. cbn [map concat fst snd].
            string_assoc.
          - exists (", " ++ Py.join ", " (map mailbox (e :: l))). split.
            + cbn [map]. unfold Py.join.
              change (concat ", " (mailbox (n, a) :: mailbox e :: map mailbox l))
                with (mailbox (n, a) ++ ", "
                      ++ concat ", " (mailbox e :: map mailbox l)).
              unfold mailbox at 1. cbn [fst snd].
              string_assoc.
            + change (String ">" (", " ++ Py.join ", " (map mailbox (e :: l))))
                with (">, " ++ Py.join ", " (map mailbox (e :: l))).
              now apply IH. }
        destruct E as (tail & -> & Et).
        replace (pre ++ n ++ " " ++ String "<" (a ++ String ">" tail))
          with ((pre ++ n ++ " ") ++ String "<" (a ++ String ">" tail))
          by string_assoc.
        rewrite scan_skip_prefix; try reflexivity.
        + rewrite scan_match.
          * now rewrite Et.
          * now apply address_nonempty.
          * now apply match_address.
        + rewrite !all_chars_append, Hpre, Hn. reflexivity. }
    apply (G ""). reflexivity.
Qed.

Lemma extract_mailboxes_witness :
  Forall (fun e => all_chars not_at (fst e) = true /\ address (snd e))
    [("John Doe", "john@example.com"); ("Sales, EMEA", "sales@shop.co.uk")]
  /\ extractEmails
       (Some "John Doe <john@example.com>, Sales, EMEA <sales@shop.co.uk>")
     = Some "john@example.com;sales@shop.co.uk".
Proof.
  assert (H : Forall (fun e => all_chars not_at (fst e) = true
                               /\ address (snd e))
                [("John Doe", "john@example.com");
                 ("Sales, EMEA", "sales@shop.co.uk")]).
  { repeat constructor.
    - apply (address_intro "john" "example" "com"); (discriminate || reflexivity).
    - apply (address_intro "sales" "shop" "co.uk"); (discriminate || reflexivity). }
  split; [exact H | exact (proj2 extract_mailboxes _ H)].
Defined.

End ExtractionFacts.

(** *** The exception that stops the run *)

Section ErrorOrder.

Variable header_text : string -> result string.

Lemma mapM_first_raise {A B : Type} (f : A -> result B) (l : list A) :
  match mapM f l with
  | Ok l' => first_raise f l = None /\ Forall2 (fun x y => f x = Ok y) l l'
  | Raise e => first_raise f l = Some e
  end.
Proof.
  induction l as [|x l IH]; simpl; [now split|].
  destruct (f x) as [y|e] eqn:Hx; simpl; [|reflexivity].
  destruct (mapM f l) as [l'|e]; simpl; [|exact IH].
  destruct IH as [H1 H2]. split; [exact H1 | now constructor].
Qed.

Lemma first_raise_ext {A A' B B' : Type} (P : A -> A' -> Prop)
    (f : A -> result B) (g : A' -> result B') (l : list A) (l' : list A') :
  Forall2 P l l' ->
  (forall x y, P x y ->
     match f x, g y with
     | Ok _, Ok _ => True
     | Raise e, Raise e' => e = e'
     | _, _ => False
     end) ->
  first_raise f l = first_raise g l'.
Proof.
  intros HF Hfg. induction HF as [|x y l l' Hxy HF IH]; [reflexivity|].
  simpl. specialize (Hfg x y Hxy).
  destruct (f x), (g y); try contradiction; [exact IH | now subst].
Qed.


Lemma first_raise_bind {A B C : Type} (f : A -> result B) (g : A -> B -> C)
    (l : list A) :
  first_raise (fun x => v <- f x ;; Ok (g x v)) l = first_raise f l.
Proof.
  induction l as [|x l IH]; [reflexivity|]. simpl.
  destruct (f x); simpl; [exact IH | reflexivity].
Qed.

Lemma first_raise_map {A A' B : Type} (f : A' -> result B) (g : A -> A')
    (l : list A) :
  first_raise f (map g l) = first_raise (fun x => f (g x)) l.
Proof.
  induction l as [|x l IH]; [reflexivity|]. simpl.
  destruct (f (g x)); [exact IH | reflexivity].
Qed.

Lemma mapM_pure {A B : Type} (g : A -> B) (l : list A) :
  mapM (fun x => Ok (g x)) l = Ok (map g l).
Proof. induction l as [|x l IH]; [reflexivity|]. simpl. now rewrite IH. Qed.

Lemma Forall2_comp {A B C : Type} (P : A -> B -> Prop) (Q : B -> C -> Prop)
    (l : list A) (l' : list B) (l'' : list C) :
  Forall2 P l l' -> Forall2 Q l' l'' ->
  Forall2 (fun x z => exists y, P x y /\ Q y z) l l''.
Proof.
  intros H. revert l''. induction H as [|x y l l' Hxy H IH]; intros l'' H'.
  - inversion H'. constructor.
  - inversion H' as [|? z ? l3 Hyz H3]; subst. constructor.
    + now exists y.
    + now apply IH.
Qed.

Lemma Forall2_map_right {A B C : Type} (P : A -> B -> Prop) (g : B -> C)
    (l : list A) (l' : list B) :
  Forall2 P l l' -> Forall2 (fun x z => exists y, P x y /\ z = g y) l (map g l').
Proof.
  induction 1 as [|x y l l' Hxy H IH]; simpl; constructor; [now exists y | exact IH].
Qed.

(** The rows a row is exploded into have its fields, and there is one at
    least. *)
Lemma first_raise_explode {B : Type} (f : Row -> result B)
    (l : list (Assigned (list string))) :
  first_raise (fun r : Assigned cell => f (fields r)) (Pd.explode l)
  = first_raise (fun r => f (fields r)) l.
Proof.
  unfold Pd.explode. induction l as [|[row cs] l IH]; [reflexivity|].
  cbn [flat_map]. unfold Pd.explode_row at 1. cbn [Activity_Assigned_To fields].
  destruct cs as [|c cs].
  - cbn [app first_raise fields]. now rewrite IH.
  - cbn [map app first_raise fields].
    destruct (f row) as [v|e] eqn:Hv; [|reflexivity].
    induction cs as [|c' cs IHcs]; cbn [map app first_raise fields].
    + exact IH.
    + now rewrite Hv.
Qed.

(** The exception that stops the run is chosen column by column, not
    record by record: the first label that is missing, else the first date
    that [getDates] raises on, else the first record whose contacts cannot
    be listed, else the first subject that cannot be decoded; and the run
    raises in no other case. *)
Theorem main_error_order (table : list Row) (e : exn) :
  main header_text table = Raise e
  <-> or_else (first_raise (fun r => direction (X_Gmail_Labels r)) table)
        (or_else (first_raise (fun r => date_cell (Date r)) table)
           (or_else (first_raise contacts table)
              (first_raise (fun r => decode_subject header_text (Subject r))
                 table)))
      = Some e.
Proof.
  unfold main, Pd.map_column.
  match goal with
  | |- context [bind (mapM ?f table) _] =>
      pose proof (mapM_first_raise f table) as H1;
      rewrite first_raise_bind in H1;
      destruct (mapM f table) as [t1|e1]
  end; cbn [bind].
  2:{ rewrite H1. cbn [or_else]. split; congruence. }
  destruct H1 as [-> F1]. cbn [or_else].
  assert (G1 : Forall2 (fun r r1 => exists v, r1 = set_X_Gmail_Labels r v)
                 table t1).
  { eapply Forall2_impl; [|exact F1]. cbn beta. intros r r1 H.
    destruct (direction (X_Gmail_Labels r)) as [v|]; [|discriminate].
    injection H as <-. now exists v. }
  clear F1.
  match goal with
  | |- context [bind (mapM ?f t1) _] =>
      pose proof (mapM_first_raise f t1) as H2;
      rewrite first_raise_bind in H2;
      destruct (mapM f t1) as [t2|e2]
  end; cbn [bind].
  all: assert (D1 : first_raise (fun r => date_cell (Date r)) table
                    = first_raise (fun r => date_cell (Date r)) t1)
         by (apply (first_raise_ext _ _ _ _ _ G1); intros r r1 [v ->];
             cbn [set_X_Gmail_Labels Date]; now destruct (date_cell (Date r))).
  2:{ rewrite D1, H2. cbn [or_else]. split; congruence. }
  destruct H2 as [H2 F2]. rewrite D1, H2. cbn [or_else]. clear D1 H2.
  assert (G2 : Forall2 (fun r r2 => exists v d,
                          r2 = set_Date (set_X_Gmail_Labels r v) d) table t2).
  { eapply Forall2_impl; [|exact (Forall2_comp _ _ _ _ _ G1 F2)].
    cbn beta. intros r r2 (r1 & [v ->] & H).
    destruct (date_cell _) as [d|]; [|discriminate].
    injection H as <-. now exists v, d. }
  clear G1 F2.
  repeat (rewrite mapM_pure; cbn [bind]). rewrite !map_map.
  match goal with
  | |- context [mapM ?f (map ?g t2)] =>
      pose proof (mapM_first_raise f (map g t2)) as H6;
      rewrite first_raise_bind in H6;
      pose proof (Forall2_map_right _ g _ _ G2) as G5;
      destruct (mapM f (map g t2)) as [t6|e6]
  end; cbn [bind].
  all: match type of G5 with
       | Forall2 _ _ ?t5 =>
           assert (D5 : first_raise contacts table
                        = first_raise (fun row => getNonDomainEmails
                                         (From row) (To row) (Cc row)) t5)
             by (apply (first_raise_ext _ _ _ _ _ G5);
                 intros r r5 (r2 & (v & d & ->) & ->); unfold contacts;
                 row_simpl;
                 now destruct (getNonDomainEmails _ _ _))
       end.
  2:{ rewrite D5, H6. cbn [or_else]. split; congruence. }
  destruct H6 as [H6 F6]. rewrite D5, H6. cbn [or_else]. clear D5 H6.
  pose proof (Forall2_comp _ _ _ _ _ G5 F6) as G6. clear G5 F6 G2.
  match goal with
  | |- context [mapM ?f (Pd.explode t6)] =>
      pose proof (mapM_first_raise f (Pd.explode t6)) as H7;
      rewrite first_raise_bind in H7;
      rewrite (first_raise_explode
                 (fun row => decode_subject header_text (Subject row))) in H7;
      destruct (mapM f (Pd.explode t6)) as [t7|e7]
  end; cbn [bind].
  all: assert (D6 : first_raise (fun r => decode_subject header_text (Subject r))
                      table
                    = first_raise (fun r : Assigned (list string) =>
                                     decode_subject header_text
                                       (Subject (fields r))) t6)
         by (apply (first_raise_ext _ _ _ _ _ G6);
             intros r a (r5 & (r2 & (v & d & ->) & ->) & H);
             revert H; row_simpl;
             destruct (getNonDomainEmails _ _ _) as [l|]; [|discriminate];
             intros [= <-]; row_simpl;
             now destruct (decode_subject header_text (Subject r))).
  - destruct H7 as [H7 _]. rewrite D6, H7. split; discriminate.
  - rewrite D6, H7. split; congruence.
Qed.

End ErrorOrder.

(** *** What getDates returns *)

Section DateOutput.

Local Open Scope Z_scope.

(** The constructor accepts valid fields only. *)
Lemma new_inv (t : EmailUtils.time_tuple) (dt : DateTime.datetime) :
  DateTime.new (EmailUtils.tm_year t) (EmailUtils.tm_mon t)
    (EmailUtils.tm_mday t) (EmailUtils.tm_hour t) (EmailUtils.tm_min t)
    (EmailUtils.tm_sec t) = Ok dt ->
  valid_fields t.
Proof.
  destruct t as [y m d H M S wd yd dst off]. unfold valid_fields. cbn.
  unfold DateTime.new, DateTime.MINYEAR, DateTime.MAXYEAR.
  repeat match goal with
         | |- (if negb ?c then _ else _) = _ -> _ =>
             destruct c eqn:?; cbn [negb]; [|discriminate]
         end.
  intros _.
  repeat match goal with
         | E : _ && _ = true |- _ => apply andb_prop in E; destruct E
         | E : (_ <=? _) = true |- _ => apply Z.leb_le in E
         end.
  lia.
Qed.

Ltac month_compute :=
  repeat match goal with
         | |- context [nth ?n ?l ?d] =>
             let v := eval vm_compute in (nth n l d) in
             change (nth n l d) with v
         | |- context [Z.eqb ?a ?b] =>
             let v := eval vm_compute in (Z.eqb a b) in
             change (Z.eqb a b) with v
         | |- context [Z.ltb ?a ?b] =>
             let v := eval vm_compute in (Z.ltb a b) in
             change (Z.ltb a b) with v
         end;
  cbn [andb].

Lemma day_of_year_le (year month day : Z) :
  1 <= month <= 12 -> day <= DateTime._days_in_month year month ->
  DateTime._days_before_month year month + day
  <= if DateTime._is_leap year then 366 else 365.
Proof.
  intros H. unfold DateTime._days_before_month, DateTime._days_in_month.
  assert (C : month = 1 \/ month = 2 \/ month = 3 \/ month = 4 \/ month = 5
              \/ month = 6 \/ month = 7 \/ month = 8 \/ month = 9
              \/ month = 10 \/ month = 11 \/ month = 12) by lia.
  destruct (DateTime._is_leap year);
    repeat (destruct C as [-> | C]; [month_compute; lia|]);
    subst; month_compute; lia.
Qed.

(** The last day the constructor accepts is day [MAXORDINAL]. *)
Lemma ymd2ord_le (year month day : Z) :
  1 <= year <= 9999 -> 1 <= month <= 12 ->
  day <= DateTime._days_in_month year month ->
  DateTime._ymd2ord year month day <= DateTime.MAXORDINAL.
Proof.
  intros Hy Hm Hd. pose proof (day_of_year_le year month day Hm Hd) as H.
  unfold DateTime._ymd2ord, DateTime.MAXORDINAL.
  set (dbm := DateTime._days_before_month year month) in *.
  assert (C : year = 9999 \/ year <= 9998) by lia. destruct C as [-> | C].
  - change (DateTime._is_leap 9999) with false in H. cbv iota in H.
    change (DateTime._days_before_year 9999) with 3651694. lia.
  - assert (DateTime._days_before_year year <= 3651329).
    { unfold DateTime._days_before_year. cbv zeta.
      Z.div_mod_to_equations. lia. }
    destruct (DateTime._is_leap year); lia.
Qed.

Lemma getDates_inv (s ms : string) :
  getDates s = Ok ms ->
  exists t,
    EmailUtils.parsedate_tz s = Ok (Some t)
    /\ valid_fields t
    /\ representable (utc_seconds t)
    /\ ms = Py.str_of_int (utc_seconds t * 1000).
Proof.
  unfold getDates, utc_seconds. intros H.
  destruct (EmailUtils.parsedate_tz s) as [[t|]|] eqn:Hp; cbn [bind] in H;
    try discriminate.
  exists t. split; [reflexivity|].
  destruct (DateTime.new _ _ _ _ _ _) as [dt|] eqn:Hn; cbn [bind] in H;
    [|discriminate].
  pose proof (new_inv t dt Hn) as Hv. split; [exact Hv|].
  assert (Hr : representable
         (epoch_seconds t
          - match EmailUtils.tm_offset t with Some seconds => seconds | None => 0 end)).
  { rewrite (new_valid t Hv) in Hn. injection Hn as <-.
    destruct t as [y m d HH M S wd yd dst off].
    unfold representable, epoch_seconds, valid_fields in *.
    cbn [EmailUtils.tm_year EmailUtils.tm_mon EmailUtils.tm_mday
         EmailUtils.tm_hour EmailUtils.tm_min EmailUtils.tm_sec
         EmailUtils.tm_offset] in *.
    destruct Hv as (Hy & Hm & Hd & Hh & HM & HS).
    pose proof (days_in_month_le y m Hm) as Hdim.
    pose proof (days_before_month_bounds y m Hm) as Hdbm.
    pose proof (days_before_year_bounds y Hy) as Hdby.
    pose proof (ymd2ord_le y m d Hy Hm (proj2 Hd)) as Hmax.
    unfold DateTime.MAXORDINAL in Hmax.
    unfold DateTime._ymd2ord in *.
    set (dby := DateTime._days_before_year y) in *.
    set (dbm := DateTime._days_before_month y m) in *.
    destruct off as [off|]; [|lia].
    destruct (DateTime.timedelta off) as [delta|] eqn:Ht; cbn [bind] in H;
      [|discriminate].
    unfold DateTime.timedelta in Ht.
    destruct (_ && _) in Ht; [|discriminate]. injection Ht as <-.
    unfold DateTime.sub, DateTime.MAXORDINAL in H.
    cbn [DateTime.ordinal DateTime.second_of_day] in H.
    destruct (_ && _) eqn:E in H; [|discriminate].
    apply andb_prop in E. destruct E as [E1 E2].
    apply Z.leb_le in E1, E2. clear H.
    Z.div_mod_to_equations. lia. }
  split; [exact Hr|].
  pose proof (getDates_valid s t Hp Hv Hr) as G. unfold getDates in G.
  rewrite Hp in G. cbn [bind] in G. rewrite Hn in G. cbn [bind] in G.
  congruence.
Qed.


End DateOutput.

Section Numerals.

Lemma lstrip_with_id (p : ascii -> bool) (s : string) :
  all_chars (fun c => negb (p c)) s = true -> Py.lstrip_with p s = s.
Proof.
  destruct s as [|c s]; [reflexivity|]. simpl.
  destruct (p c); [discriminate | reflexivity].
Qed.

Lemma rstrip_with_id (p : ascii -> bool) (s : string) :
  all_chars (fun c => negb (p c)) s = true -> Py.rstrip_with p s = s.
Proof.
  induction s as [|c s IH]; [reflexivity|]. simpl.
  destruct (p c) eqn:Hc; [discriminate|]. simpl. intros H. rewrite (IH H).
  now destruct s.
Qed.

(** The characters of a numeral are decimal digits. *)
Lemma uint_digits (d : Decimal.uint) :
  all_chars Py.isdecimal (NilEmpty.string_of_uint d) = true.
Proof. induction d; simpl; try exact IHd; reflexivity. Qed.

Lemma count_digits_uint (d : Decimal.uint) :
  Py.count_digits (NilEmpty.string_of_uint d) = Decimal.nb_digits d.
Proof. induction d; simpl; congruence. Qed.

(** Reading the digits of a numeral after the digits of another. *)
Lemma int_digits_uint (d d' : Decimal.uint) :
  Py.int_digits (Z.of_N (DecimalPos.Unsigned.of_lu d')) true (NilEmpty.string_of_uint d)
  = Some (Z.of_N (DecimalPos.Unsigned.of_lu (Decimal.revapp d d'))).
Proof.
  revert d'. induction d; intros d'; [reflexivity|..];
    cbn [NilEmpty.string_of_uint Py.int_digits Decimal.revapp];
    match goal with
    | |- context [Py.isdecimal ?c] =>
        change (Py.isdecimal c) with true; cbv iota
    end;
    rewrite <- IHd; f_equal;
    match goal with
    | |- context [Z.of_nat ?n] =>
        let v := eval vm_compute in (Z.of_nat n) in
        change (Z.of_nat n) with v
    end;
    cbn [DecimalPos.Unsigned.of_lu]; lia.
Qed.

Lemma int_digits_numeral (d : Decimal.uint) :
  d <> Decimal.Nil ->
  Py.int_digits 0 false (NilEmpty.string_of_uint d) = Some (Z.of_N (Pos.of_uint d)).
Proof.
  intros Hd. rewrite DecimalPos.Unsigned.of_uint_alt. unfold Decimal.rev.
  rewrite <- int_digits_uint. destruct d; [congruence|..]; reflexivity.
Qed.

(** A number has no more decimal digits than binary ones. *)
Lemma nb_digits_double (d : Decimal.uint) :
  (Decimal.nb_digits (Decimal.Little.double d) <= S (Decimal.nb_digits d)
   /\ Decimal.nb_digits (Decimal.Little.succ_double d)
      <= S (Decimal.nb_digits d))%nat.
Proof. induction d; simpl; lia. Qed.

Lemma nb_digits_to_uint (p : positive) :
  (Decimal.nb_digits (Pos.to_uint p) <= Pos.size_nat p)%nat.
Proof.
  unfold Pos.to_uint. rewrite DecimalFacts.nb_digits_rev.
  induction p as [p IH|p IH|]; simpl.
  - pose proof (proj2 (nb_digits_double (Pos.to_little_uint p))). lia.
  - pose proof (proj1 (nb_digits_double (Pos.to_little_uint p))). lia.
  - lia.
Qed.

Lemma int_literal_numeral (p : positive) :
  (Pos.size_nat p <= Py.max_str_digits)%nat ->
  Py.int_literal (NilEmpty.string_of_uint (Pos.to_uint p)) = Some (Z.pos p).
Proof.
  intros H. unfold Py.int_literal. rewrite count_digits_uint.
  pose proof (nb_digits_to_uint p) as Hn.
  rewrite (proj2 (Nat.ltb_ge _ _)) by lia.
  rewrite int_digits_numeral by apply DecimalPos.Unsigned.to_uint_nonnil.
  now rewrite DecimalPos.Unsigned.of_to.
Qed.

Lemma isdecimal_not_space (s : string) :
  all_chars Py.isdecimal s = true ->
  all_chars (fun c => negb (Py.int_space c)) s = true.
Proof.
  apply all_chars_weaken. intros c. unfold Py.isdecimal, Py.int_space, Py.between.
  rewrite !andb_true_iff, !Nat.leb_le. intros [H1 H2].
  rewrite !negb_true_iff, !orb_false_iff, !andb_false_iff, !Nat.leb_gt,
    !Nat.eqb_neq. lia.
Qed.

Lemma size_nat_bound (k : nat) (p : positive) :
  (Z.pos p < 2 ^ Z.of_nat k)%Z -> (Pos.size_nat p <= k)%nat.
Proof.
  revert p. induction k as [|k IH]; intros p H.
  - change (2 ^ Z.of_nat 0)%Z with 1%Z in H. lia.
  - rewrite Nat2Z.inj_succ, Z.pow_succ_r in H by lia.
    destruct p as [p|p|]; cbn [Pos.size_nat]; [| |lia];
      apply le_n_S, IH; lia.
Qed.

(** [int] reads what [str] writes, as long as the digits are not too
    many. *)
Lemma int_str_of_int (n : Z) :
  (Z.abs n < 2 ^ 64)%Z -> Py.int (Py.str_of_int n) = Some n.
Proof.
  intros Hn.
  assert (Hp : forall p, (Z.pos p < 2 ^ 64)%Z ->
                 (Pos.size_nat p <= Py.max_str_digits)%nat).
  { intros p Hlt. apply (size_nat_bound 64) in Hlt.
    apply (Nat.le_trans _ _ _ Hlt). apply Nat.leb_le. reflexivity. }
  unfold Py.str_of_int, Py.int. destruct n as [|p|p].
  - reflexivity.
  - cbn [Z.to_int NilZero.string_of_int].
    pose proof (DecimalPos.Unsigned.to_uint_nonnil p) as Hnil.
    pose proof (int_literal_numeral p (Hp p Hn)) as Hl.
    pose proof (uint_digits (Pos.to_uint p)) as Hd.
    unfold NilZero.string_of_uint.
    destruct (Pos.to_uint p) as [|d|d|d|d|d|d|d|d|d|d] eqn:E; [congruence|..];
      rewrite lstrip_with_id, rstrip_with_id
        by (apply isdecimal_not_space; exact Hd);
      exact Hl.
  - cbn [Z.to_int NilZero.string_of_int].
    pose proof (DecimalPos.Unsigned.to_uint_nonnil p) as Hnil.
    pose proof (int_literal_numeral p (Hp p Hn)) as Hl.
    pose proof (uint_digits (Pos.to_uint p)) as Hd.
    assert (Hs : NilEmpty.string_of_uint (Pos.to_uint p) = NilZero.string_of_uint (Pos.to_uint p))
      by (unfold NilZero.string_of_uint; destruct (Pos.to_uint p); congruence).
    rewrite <- Hs.
    rewrite lstrip_with_id, rstrip_with_id
      by (cbn [all_chars]; change (negb (Py.int_space "-")) with true;
          cbn [andb]; apply isdecimal_not_space; exact Hd).
    rewrite Hl. reflexivity.
Qed.


(** The numerals [str] writes hold no white space. *)
Lemma str_of_int_no_space (n : Z) :
  all_chars (fun c => negb (Py.isspace c)) (Py.str_of_int n) = true.
Proof.
  assert (W : forall s, all_chars Py.isdecimal s = true ->
                all_chars (fun c => negb (Py.isspace c)) s = true).
  { intros s. apply all_chars_weaken. intros c.
    unfold Py.isdecimal, Py.isspace, Py.between.
    rewrite !andb_true_iff, !Nat.leb_le. intros [H1 H2].
    rewrite !negb_true_iff, !orb_false_iff, !andb_false_iff, !Nat.leb_gt,
      !Nat.eqb_neq. lia. }
  assert (U : forall d, all_chars (fun c => negb (Py.isspace c))
                          (NilZero.string_of_uint d) = true).
  { intros d. unfold NilZero.string_of_uint.
    pose proof (W _ (uint_digits d)) as H. now destruct d. }
  unfold Py.str_of_int.
  destruct (Z.to_int n) as [d|d]; cbn [NilZero.string_of_int all_chars];
    [apply U|].
  rewrite U. reflexivity.
Qed.

End Numerals.

Section DateWords.

Lemma split_ws_aux_one_word (s : string) (tok : list ascii) :
  all_chars (fun c => negb (Py.isspace c)) s = true ->
  (List.length (Py.split_ws_aux tok s) <= 1)%nat.
Proof.
  revert tok. induction s as [|c s IH]; intros tok; cbn [Py.split_ws_aux all_chars].
  - destruct tok; simpl; lia.
  - destruct (Py.isspace c); [discriminate|]. cbn [negb andb]. apply IH.
Qed.

(** Fewer than three words are no date. *)
Lemma parsedate_tz_few_words (s : string) :
  (List.length (Py.split_ws s) <= 2)%nat ->
  EmailUtils.parsedate_tz s = Ok None.
Proof.
  intros H. unfold EmailUtils.parsedate_tz, EmailUtils._parsedate_tz.
  destruct (EmailUtils.is_empty s); [reflexivity|].
  destruct (Py.split_ws s) as [|d0 [|d1 [|d2 rest]]]; [reflexivity| | |simpl in H; lia];
    cbv zeta;
    destruct (Py.endswith "," d0 || Py.mem (Py.lower d0) EmailUtils._daynames);
    try reflexivity;
    destruct (0 <=? Py.rfind "," d0)%Z; reflexivity.
Qed.

End DateWords.

Section GetDatesFacts.

Local Open Scope Z_scope.

(** [getDates] returns exactly on a string that the parser reads as a
    day of the calendar and a time of that day whose instant, the offset
    taken off, lies in the years 1 to 9999; the string returned is the
    milliseconds from the epoch to that instant. *)
Theorem getDates_returns_iff (s ms : string) :
  getDates s = Ok ms
  <-> exists t : EmailUtils.time_tuple,
        EmailUtils.parsedate_tz s = Ok (Some t)
        /\ valid_fields t
        /\ representable (utc_seconds t)
        /\ ms = Py.str_of_int (utc_seconds t * 1000).
Proof.
  split.
  - exact (getDates_inv s ms).
  - intros (t & Hp & Hv & Hr & ->). exact (getDates_valid s t Hp Hv Hr).
Qed.

(** What [getDates] returns is a decimal literal: [int] reads it back as
    a whole number of seconds, of the range of [datetime], times 1000. *)
Theorem getDates_reads_back (s ms : string) :
  getDates s = Ok ms ->
  exists k : Z, representable k /\ Py.int ms = Some (k * 1000).
Proof.
  intros H. apply getDates_inv in H as (t & _ & _ & Hr & ->).
  exists (utc_seconds t). split; [exact Hr|].
  apply int_str_of_int. unfold representable in Hr.
  change (2 ^ 64) with 18446744073709551616. lia.
Qed.

Lemma getDates_reads_back_witness :
  getDates "Fri, 15 Dec 2023 11:40:42 -0500" = Ok "1702658442000"
  /\ exists k : Z, representable k /\ Py.int "1702658442000" = Some (k * 1000).
Proof.
  assert (H : getDates "Fri, 15 Dec 2023 11:40:42 -0500" = Ok "1702658442000")
    by (vm_compute; reflexivity).
  split; [exact H | exact (getDates_reads_back _ _ H)].
Defined.

(** Two dates get the same string exactly when they name the same
    instant, whatever their zones. *)
Theorem getDates_same_instant (s1 s2 m1 m2 : string)
    (t1 t2 : EmailUtils.time_tuple) :
  EmailUtils.parsedate_tz s1 = Ok (Some t1) ->
  EmailUtils.parsedate_tz s2 = Ok (Some t2) ->
  getDates s1 = Ok m1 -> getDates s2 = Ok m2 ->
  (m1 = m2 <-> utc_seconds t1 = utc_seconds t2).
Proof.
  intros P1 P2 H1 H2.
  apply getDates_inv in H1 as (t1' & P1' & _ & R1 & ->).
  apply getDates_inv in H2 as (t2' & P2' & _ & R2 & ->).
  assert (t1' = t1) by congruence. assert (t2' = t2) by congruence. subst.
  split; [|now intros ->].
  intros E. apply (f_equal Py.int) in E.
  unfold representable in R1, R2.
  rewrite !int_str_of_int in E
    by (change (2 ^ 64) with 18446744073709551616; lia).
  injection E. lia.
Qed.

Lemma getDates_same_instant_witness :
  let s1 := "Fri, 15 Dec 2023 11:40:42 -0500" in
  let s2 := "15 Dec 2023 17:40:42 +0100" in
  let t1 := EmailUtils.mk_time_tuple 2023 12 15 11 40 42 0 1 (-1) (Some (-18000)) in
  let t2 := EmailUtils.mk_time_tuple 2023 12 15 17 40 42 0 1 (-1) (Some 3600) in
  getDates s1 = Ok "1702658442000" /\ getDates s2 = Ok "1702658442000"
  /\ ("1702658442000"%string = "1702658442000"%string
      <-> utc_seconds t1 = utc_seconds t2).
Proof.
  intros s1 s2 t1 t2.
  assert (P1 : EmailUtils.parsedate_tz s1 = Ok (Some t1)) by (vm_compute; reflexivity).
  assert (P2 : EmailUtils.parsedate_tz s2 = Ok (Some t2)) by (vm_compute; reflexivity).
  assert (H1 : getDates s1 = Ok "1702658442000") by (vm_compute; reflexivity).
  assert (H2 : getDates s2 = Ok "1702658442000") by (vm_compute; reflexivity).
  split; [exact H1 | split; [exact H2|]].
  exact (getDates_same_instant s1 s2 _ _ t1 t2 P1 P2 H1 H2).
Defined.

(** A string of fewer than three words is refused with the error of the
    invalid format. *)
Theorem getDates_few_words (s : string) :
  (List.length (Py.split_ws s) <= 2)%nat ->
  getDates s = Raise (ValueError "Invalid RFC 2822 date format").
Proof.
  intros H. unfold getDates. now rewrite (parsedate_tz_few_words s H).
Qed.

Lemma getDates_few_words_witness :
  Py.split_ws "2023-12-15 16:40:42" = ["2023-12-15"; "16:40:42"]%string
  /\ getDates "2023-12-15 16:40:42"
     = Raise (ValueError "Invalid RFC 2822 date format").
Proof.
  split; [reflexivity|].
  apply (getDates_few_words "2023-12-15 16:40:42"). simpl. lia.
Defined.

(** [getDates] does not read what it writes: on a string it returned it
    raises the error of the invalid format. *)
Theorem getDates_rejects_its_output (s ms : string) :
  getDates s = Ok ms ->
  getDates ms = Raise (ValueError "Invalid RFC 2822 date format").
Proof.
  intros H. apply getDates_inv in H as (t & _ & _ & _ & ->).
  unfold getDates. rewrite parsedate_tz_few_words; [reflexivity|].
  pose proof (split_ws_aux_one_word _ [] (str_of_int_no_space (utc_seconds t * 1000))) as L.
  unfold Py.split_ws. lia.
Qed.

Lemma getDates_rejects_its_output_witness :
  getDates "Fri, 15 Dec 2023 11:40:42 -0500" = Ok "1702658442000"
  /\ getDates "1702658442000"
     = Raise (ValueError "Invalid RFC 2822 date format").
Proof.
  assert (H : getDates "Fri, 15 Dec 2023 11:40:42 -0500" = Ok "1702658442000")
    by (vm_compute; reflexivity).
  split; [exact H | exact (getDates_rejects_its_output _ _ H)].
Defined.

End GetDatesFacts.

(** *** The companies of the contacts file *)

Section CompaniesFacts.

Lemma fold_set_rev {A : Type} (f : A -> option string * Csv.value)
    (l : list A) (d : Csv.dict) :
  fold_left (fun d x => Csv.set (fst (f x)) (snd (f x)) d) l d
  = rev (map f l) ++ d.
Proof.
  revert d. induction l as [|x l IH]; intros d; [reflexivity|].
  cbn [fold_left map rev]. rewrite IH, <- app_assoc. unfold Csv.set.
  now destruct (f x).
Qed.

Lemma bindings_split (fieldnames row : list string) :
  bindings fieldnames row
  = map (fun kv => (Some (fst kv), Csv.Str (snd kv))) (combine fieldnames row)
    ++ map (fun k => (Some k, Csv.NoneValue))
         (skipn (List.length row) fieldnames).
Proof.
  revert row. induction fieldnames as [|k ks IH]; intros row.
  - now destruct row.
  - destruct row as [|v vs]; cbn [bindings combine map List.length skipn app].
    + f_equal. rewrite (IH []). now destruct ks.
    + f_equal. apply IH.
Qed.

Lemma row_dict_bindings (fieldnames row : list string) :
  Csv.row_dict fieldnames row
  = (if Nat.ltb (List.length fieldnames) (List.length row)
     then [(None, Csv.Rest (skipn (List.length fieldnames) row))]
     else [])
    ++ rev (bindings fieldnames row).
Proof.
  unfold Csv.row_dict, Csv.of_zip. cbv zeta.
  rewrite (fold_set_rev (fun kv => (Some (fst kv), Csv.Str (snd kv)))).
  rewrite app_nil_r, bindings_split.
  destruct (Nat.ltb (List.length fieldnames) (List.length row)) eqn:E1.
  - apply Nat.ltb_lt in E1. rewrite (skipn_all2 fieldnames) by lia.
    cbn [map]. now rewrite app_nil_r.
  - destruct (Nat.ltb (List.length row) (List.length fieldnames)) eqn:E2.
    + rewrite (fold_set_rev (fun k => (Some k, Csv.NoneValue))).
      now rewrite rev_app_distr.
    + apply Nat.ltb_ge in E1, E2. rewrite (skipn_all2 fieldnames) by lia.
      cbn [map]. now rewrite app_nil_r.
Qed.

Lemma get_app (k : option string) (d1 d2 : Csv.dict) :
  Csv.get k (d1 ++ d2)
  = match Csv.get k d1 with
    | Some v => Some v
    | None => Csv.get k d2
    end.
Proof.
  induction d1 as [|[k' v] d1 IH]; [reflexivity|]. cbn [app Csv.get].
  now destruct (Csv.key_eqb k' k).
Qed.

Lemma key_eqb_refl (key : string) : Csv.key_eqb (Some key) (Some key) = true.
Proof. apply String.eqb_refl. Qed.

Lemma get_bindings_none (key : string) (fieldnames row : list string) :
  ~ In key fieldnames ->
  Csv.get (Some key) (rev (bindings fieldnames row)) = None.
Proof.
  revert row. induction fieldnames as [|k ks IH]; intros row H; [reflexivity|].
  assert (Hk : Csv.key_eqb (Some k) (Some key) = false).
  { apply String.eqb_neq. intros ->. apply H. now left. }
  assert (Hks : ~ In key ks) by (intros Hin; apply H; now right).
  destruct row as [|v vs]; cbn [bindings rev]; rewrite get_app, (IH _ Hks);
    cbn [Csv.get]; now rewrite Hk.
Qed.

(** The binding found is the one of the last column of the name. *)
Lemma get_bindings (key : string) (fieldnames row : list string) (i : nat) :
  nth_error fieldnames i = Some key ->
  (forall j, i < j -> nth_error fieldnames j <> Some key) ->
  Csv.get (Some key) (rev (bindings fieldnames row)) = Some (cell_at i row).
Proof.
  revert row i. induction fieldnames as [|k ks IH]; intros row i Hi Hlast.
  - now destruct i.
  - destruct i as [|i].
    + injection Hi as ->.
      assert (Hks : ~ In key ks).
      { intros Hin. apply In_nth_error in Hin as [j Hj].
        exact (Hlast (S j) (Nat.lt_0_succ j) Hj). }
      destruct row as [|v vs]; cbn [bindings rev];
        rewrite get_app, (get_bindings_none _ _ _ Hks); cbn [Csv.get];
        now rewrite key_eqb_refl.
    + cbn [nth_error] in Hi.
      assert (Hl : forall j, i < j -> nth_error ks j <> Some key).
      { intros j Hj. apply (Hlast (S j)). lia. }
      destruct row as [|v vs]; cbn [bindings rev]; rewrite get_app.
      * rewrite (IH [] i Hi Hl). unfold cell_at. now destruct i.
      * now rewrite (IH vs i Hi Hl).
Qed.

Lemma get_row_dict (key : string) (fieldnames row : list string) :
  Csv.get (Some key) (Csv.row_dict fieldnames row)
  = Csv.get (Some key) (rev (bindings fieldnames row)).
Proof.
  rewrite row_dict_bindings, get_app.
  now destruct (Nat.ltb (List.length fieldnames) (List.length row)).
Qed.

(** A name of the header has a last column. *)
Lemma last_column (key : string) (fieldnames : list string) :
  In key fieldnames ->
  exists i, nth_error fieldnames i = Some key
            /\ forall j, i < j -> nth_error fieldnames j <> Some key.
Proof.
  induction fieldnames as [|k ks IH]; [intros []|]. intros Hin.
  destruct (in_dec string_dec key ks) as [Hks|Hks].
  - destruct (IH Hks) as (i & Hi & Hlast). exists (S i). split; [exact Hi|].
    intros [|j] Hj; [lia|]. apply Hlast. lia.
  - destruct Hin as [-> | Hin]; [|contradiction].
    exists 0. split; [reflexivity|].
    intros [|j] Hj; [lia|]. cbn [nth_error]. intros Hn.
    apply Hks. exact (nth_error_In _ _ Hn).
Qed.

Lemma companies_of_column (fieldnames : list string) (i : nat)
    (rows : list (list string)) :
  nth_error fieldnames i = Some "company domain" ->
  (forall j, i < j -> nth_error fieldnames j <> Some "company domain") ->
  companies_of (map (Csv.row_dict fieldnames) rows)
  = Some (map (fun row => mk_company (mk_properties (cell_at i row))) rows).
Proof.
  intros Hi Hlast. induction rows as [|row rows IH]; [reflexivity|].
  cbn [map companies_of].
  now rewrite get_row_dict, (get_bindings _ _ row i Hi Hlast), IH.
Qed.

(** One company per row that is not blank, in the order of the file: its
    domain is the cell under the last column named [company domain], and
    [None] where the row stops before that column. *)
Theorem companies_domains (fieldnames : list string) (i : nat)
    (rows : list (list string)) :
  nth_error fieldnames i = Some "company domain" ->
  (forall j, i < j -> nth_error fieldnames j <> Some "company domain") ->
  companies (fieldnames :: rows)
  = Some (map (fun row => mk_company (mk_properties (cell_at i row)))
            (filter (fun row => negb (Csv.is_blank row)) rows)).
Proof.
  intros Hi Hlast. unfold companies, Csv.DictReader.
  now apply companies_of_column.
Qed.

Lemma companies_domains_witness :
  companies [["name"; "company domain"]; ["Ada"; "example.com"]; []; ["Bob"]]
  = Some [mk_company (mk_properties (Csv.Str "example.com"));
          mk_company (mk_properties Csv.NoneValue)].
Proof.
  apply (companies_domains ["name"; "company domain"] 1).
  - reflexivity.
  - intros [|[|[|j]]] Hj; try lia; discriminate.
Defined.

(** The script stops with the [KeyError] exactly when the header has no
    column [company domain] and a row after it is not blank. *)
Theorem companies_key_error (rows : list (list string)) :
  companies rows = None
  <-> exists fieldnames rest,
        rows = fieldnames :: rest
        /\ ~ In "company domain" fieldnames
        /\ exists row, In row rest /\ row <> [].
Proof.
  split.
  - destruct rows as [|fieldnames rest]; [discriminate|]. intros H.
    exists fieldnames, rest. split; [reflexivity|].
    destruct (in_dec string_dec "company domain" fieldnames) as [Hin|Hout].
    + destruct (last_column _ _ Hin) as (i & Hi & Hlast).
      unfold companies, Csv.DictReader in H.
      rewrite (companies_of_column _ i _ Hi Hlast) in H. discriminate.
    + split; [exact Hout|].
      unfold companies, Csv.DictReader in H.
      destruct (filter (fun row => negb (Csv.is_blank row)) rest)
        as [|row l] eqn:E; [discriminate|].
      assert (Hrow : In row (filter (fun row => negb (Csv.is_blank row)) rest))
        by (rewrite E; now left).
      apply filter_In in Hrow as [Hrow Hb]. exists row.
      split; [exact Hrow | now destruct row].
  - intros (fieldnames & rest & -> & Hout & row & Hrow & Hne).
    unfold companies, Csv.DictReader.
    assert (Hin : In row (filter (fun row => negb (Csv.is_blank row)) rest)).
    { apply filter_In. split; [exact Hrow | now destruct row]. }
    destruct (filter (fun row => negb (Csv.is_blank row)) rest) as [|r l];
      [destruct Hin|].
    cbn [map companies_of].
    now rewrite get_row_dict, (get_bindings_none _ _ _ Hout).
Qed.

End CompaniesFacts.

(** *** The contacts of a record *)


Lemma findall_addresses (s : string) :
  Forall address (Re.findall email_pattern s).
Proof. apply scan_sound. Qed.

Lemma empty_piece (ms : list string) :
  Forall address ms -> (In "" (filter external (pieces ms)) <-> ms = []).
Proof.
  intros H. split.
  - intros Hin. apply filter_In in Hin as [Hin _].
    destruct ms as [|m ms]; [reflexivity|]. cbn [pieces] in Hin.
    rewrite Forall_forall in H. now destruct (address_nonempty _ (H _ Hin)).
  - intros ->. now left.
Qed.

(** The empty contact is among the contacts of a record exactly when one
    of its [From], [To] and, where present, [Cc] holds no address. *)
Theorem empty_contact_iff (r : Row) (cs : list string) :
  contacts r = Ok cs ->
  (In "" cs
   <-> (exists f, From r = Some f /\ Re.findall email_pattern f = [])
       \/ (exists t, To r = Some t /\ Re.findall email_pattern t = [])
       \/ (exists c, Cc r = Some c /\ Re.findall email_pattern c = [])).
Proof.
  unfold contacts. destruct (From r) as [f|]; [|discriminate].
  destruct (To r) as [t|]; [|cbn [extractEmails getNonDomainEmails]; discriminate].
  rewrite contacts_of_raw. intros [= <-]. unfold contacts_of.
  rewrite !in_app_iff.
  rewrite (empty_piece _ (findall_addresses t)).
  assert (Hf : In "" (if existsb (Py.contains "insidemaps")
                           (Re.findall email_pattern f)
                      then [] else [Py.join ";" (Re.findall email_pattern f)])
               <-> Re.findall email_pattern f = []).
  { pose proof (findall_addresses f) as Ha.
    destruct (Re.findall email_pattern f) as [|a l]; [now split; [|left]|].
    split; [|discriminate]. intros Hin.
    destruct (existsb _ _); [destruct Hin|].
    destruct Hin as [Hin | []].
    now destruct (join_nonempty a l (address_nonempty _ (Forall_inv Ha))). }
  rewrite Hf. clear Hf.
  assert (Hc : In "" match option_map (Re.findall email_pattern) (Cc r) with
                     | Some cs => filter external (pieces cs)
                     | None => []
                     end
               <-> exists c, Cc r = Some c /\ Re.findall email_pattern c = []).
  { destruct (Cc r) as [c|]; cbn [option_map].
    - rewrite (empty_piece _ (findall_addresses c)). split.
      + intros H. now exists c.
      + now intros (c' & [= <-] & H).
    - split; [intros [] | now intros (c' & H & _)]. }
  rewrite Hc. clear Hc.
  split.
  - intros [H | [H | H]]; [left; now exists f | right; left; now exists t
                           | now right; right].
  - intros [(f' & [= <-] & H) | [(t' & [= <-] & H) | H]];
      [now left | now right; left | now right; right].
Qed.

Lemma empty_contact_iff_witness :
  let r := mk_row (Some "Sent") (Some "Fri, 15 Dec 2023 16:40:42 +0000")
             (Some "X <x@insidemaps.com>") (Some "undisclosed-recipients:;")
             None (Some "Hello") None in
  contacts r = Ok [""]
  /\ (In "" [""]
      <-> (exists f, From r = Some f /\ Re.findall email_pattern f = [])
          \/ (exists t, To r = Some t /\ Re.findall email_pattern t = [])
          \/ (exists c, Cc r = Some c /\ Re.findall email_pattern c = [])).
Proof.
  intros r.
  assert (H : contacts r = Ok [""]) by (vm_compute; reflexivity).
  split; [exact H | exact (empty_contact_iff r [""] H)].
Defined.

(** The contact column of the output is the contacts of the records, one
    after the other in the order of the table, each as often as it is
    listed. *)
Theorem main_contact_column (header_text : string -> result string)
    (table : list Row) (out : list (Assigned cell)) :
  main header_text table = Ok out ->
  exists css : list (list string),
    Forall2 (fun r cs => contacts r = Ok cs) table css
    /\ map Activity_Assigned_To out = map Some (List.concat css).
Proof.
  intros H. apply main_rowwise_ok in H as (outs & HF & ->).
  induction HF as [|r o table outs Hr HF IH].
  - now exists [].
  - destruct IH as (css & Hcss & Hmap).
    apply main_single_inv in Hr as (labels & date & subject & cs & _ & _ & _ & Hc & ->).
    exists (cs :: css). split; [now constructor|].
    cbn [List.concat]. rewrite !map_app, Hmap. f_equal.
    unfold expansion. rewrite map_map. reflexivity.
Qed.

Lemma main_contact_column_witness :
  let r := mk_row (Some "Inbox") (Some "Fri, 15 Dec 2023 16:40:42 +0000")
             (Some "Ann <a@x.com>") (Some "b@y.com, me@insidemaps.com")
             (Some "b@y.com") (Some "Hello") None in
  let rows := expansion r (Some "Incoming") (Some "1702658442000")
                (Some "Hello") ["a@x.com"; "b@y.com"; "b@y.com"] in
  main (fun s => Ok s) [r; r] = Ok (rows ++ rows)
  /\ exists css : list (list string),
       Forall2 (fun r cs => contacts r = Ok cs) [r; r] css
       /\ map Activity_Assigned_To (rows ++ rows) = map Some (List.concat css).
Proof.
  intros r rows.
  assert (H : main (fun s => Ok s) [r; r] = Ok (rows ++ rows))
    by (vm_compute; reflexivity).
  split; [exact H | exact (main_contact_column _ [r; r] _ H)].
Defined.

(** *** The day name of a date *)

Section DayName.

Lemma split_ws_aux_word (w s : string) (tok : list ascii) :
  all_chars (fun c => negb (Py.isspace c)) w = true ->
  Py.split_ws_aux tok (w ++ s)
  = Py.split_ws_aux (rev (list_ascii_of_string w) ++ tok) s.
Proof.
  revert tok. induction w as [|c w IH]; intros tok H; [reflexivity|].
  cbn [all_chars] in H. apply andb_prop in H as [Hc Hw].
  cbn [append Py.split_ws_aux list_ascii_of_string rev].
  apply negb_true_iff in Hc. rewrite Hc, (IH _ Hw), <- app_assoc.
  reflexivity.
Qed.

(** The words of a word, a blank and a text. *)
Lemma split_ws_first_word (w s : string) :
  w <> "" -> all_chars (fun c => negb (Py.isspace c)) w = true ->
  Py.split_ws (w ++ " " ++ s) = w :: Py.split_ws s.
Proof.
  intros Hne Hw. unfold Py.split_ws. rewrite (split_ws_aux_word _ _ _ Hw).
  rewrite app_nil_r. cbn [append Py.split_ws_aux].
  change (Py.isspace " ") with true. cbv iota.
  rewrite rev_involutive, string_of_list_ascii_of_string.
  destruct w as [|c w]; [congruence|].
  cbn [list_ascii_of_string rev].
  destruct (rev (list_ascii_of_string w) ++ [c]) eqn:E; [|reflexivity].
  now destruct (rev (list_ascii_of_string w)).
Qed.

(** The name of the day before a date is not looked at: a first word that
    ends in a comma, or is the name of a day, is dropped, whatever it is. *)
Theorem getDates_day_name_unchecked (day date first : string)
    (more : list string) :
  all_chars (fun c => negb (Py.isspace c)) day = true ->
  Py.endswith "," day || Py.mem (Py.lower day) EmailUtils._daynames = true ->
  Py.split_ws date = first :: more ->
  Py.endswith "," first || Py.mem (Py.lower first) EmailUtils._daynames
  = false ->
  (Py.rfind "," first < 0)%Z ->
  getDates (day ++ " " ++ date) = getDates date.
Proof.
  intros Hw Hday Hsplit Hfirst Hcomma.
  assert (Hne : day <> "") by (intros ->; discriminate).
  assert (Hd : date <> "") by (intros ->; discriminate).
  assert (E : EmailUtils._parsedate_tz (day ++ " " ++ date)
              = EmailUtils._parsedate_tz date).
  { unfold EmailUtils._parsedate_tz.
    rewrite (split_ws_first_word _ _ Hne Hw), Hsplit. cbv zeta.
    rewrite Hday, Hfirst.
    rewrite (proj2 (Z.leb_gt _ _) Hcomma).
    destruct day as [|c day]; [congruence|].
    destruct date as [|c' date]; [congruence|]. reflexivity. }
  unfold getDates, EmailUtils.parsedate_tz. now rewrite E.
Qed.

Lemma getDates_day_name_unchecked_witness :
  getDates ("Mon," ++ " " ++ "15 Dec 2023 16:40:42 +0000")
  = getDates "15 Dec 2023 16:40:42 +0000".
Proof.
  apply (getDates_day_name_unchecked "Mon," "15 Dec 2023 16:40:42 +0000"
           "15" ["Dec"; "2023"; "16:40:42"; "+0000"]);
    try reflexivity.
Defined.

End DayName.

(** ** Examples *)

Example extract_display_name :
  extractEmails (Some "John Doe <john@example.com>") = Some "john@example.com".
Proof. reflexivity. Qed.

Example findall_mixed :
  Re.findall email_pattern "a@b.c@d.e  x.y@z..  a@b-.c  @a.b a@.b  a@b.  a@b_c.d"
  = ["a@b.c"; "x.y@z.."; "a@b-.c"; "a@b_c.d"].
Proof. reflexivity. Qed.

Example int_examples :
  map Py.int ["12"; "+0000"; "-0530"; "1_0"; "_1"; "1__0"; "1_"; ""; "-"; "+-1"; " 12 "; "1 2"]
  = [Some 12; Some 0; Some (-530); Some 10; None; None; None; None; None; None; Some 12; None]%Z.
Proof. reflexivity. Qed.

Example str_of_int_examples :
  map Py.str_of_int [0; 7; -62135596800000; 1702658442000]%Z
  = ["0"; "7"; "-62135596800000"; "1702658442000"].
Proof. reflexivity. Qed.

Example split_examples :
  Py.split ";" "" = [""] /\ Py.split ";" "a;;b;" = ["a"; ""; "b"; ""]
  /\ Py.split_ws "  Fri,  15 Dec " = ["Fri,"; "15"; "Dec"]
  /\ Py.rstrip "ab  " = "ab" /\ Py.find "+" "12+3" = 2%Z /\ Py.rfind "," "a,b,c" = 3%Z
  /\ Py.drop_last "2023," = "2023" /\ Py.lower "FrI" = "fri" /\ Py.upper "gmt" = "GMT".
Proof. repeat split; reflexivity. Qed.

Example parsedate_examples :
  map EmailUtils.parsedate_tz
    ["Fri, 15 Dec 2023 16:40:42 +0000"; "Fri, 32 Dec 2023 16:40:42 +0000";
     "Fri, 15 Dec 2023 16:40:42"; "Fri, 15 Dec 2023 16:40:42 -0000";
     "15 Dec 2023 25:61 +0130"; "hello"; "Friday, 15-Dec-23 16:40:42 EST";
     "Dec 15, 2023 16.40 PDT"; "15 Dec 16:40:42 2023 -0530"]
  = [Ok (Some (EmailUtils.mk_time_tuple 2023 12 15 16 40 42 0 1 (-1) (Some 0)));
     Ok (Some (EmailUtils.mk_time_tuple 2023 12 32 16 40 42 0 1 (-1) (Some 0)));
     Ok (Some (EmailUtils.mk_time_tuple 2023 12 15 16 40 42 0 1 (-1) (Some 0)));
     Ok (Some (EmailUtils.mk_time_tuple 2023 12 15 16 40 42 0 1 (-1) (Some 0)));
     Ok (Some (EmailUtils.mk_time_tuple 2023 12 15 25 61 0 0 1 (-1) (Some 5400)));
     Ok None;
     Ok (Some (EmailUtils.mk_time_tuple 2023 12 15 16 40 42 0 1 (-1) (Some (-18000)%Z)));
     Ok (Some (EmailUtils.mk_time_tuple 2023 12 15 16 40 0 0 1 (-1) (Some (-25200))));
     Ok (Some (EmailUtils.mk_time_tuple 2023 12 15 16 40 42 0 1 (-1) (Some (-19800))))]%Z.
Proof. vm_compute. reflexivity. Qed.

Example getDates_examples :
  map getDates ["Fri, 15 Dec 2023 16:40:42 +0000"; "Fri, 15 Dec 2023 16:40:42 -0500";
                "Mon, 1 Jan 0001 00:00:00 +0000"; "Fri, 31 Dec 9999 23:59:59 +0000";
                "hello"; "Fri, 32 Dec 2023 16:40:42 +0000"; "Fri, 31 Dec 9999 23:59:59 -0100";
                "Dec 15, 2023 16.40 PDT"]
  = [Ok "1702658442000"; Ok "1702676442000"; Ok "978307200000"; Ok "253402300799000";
     Raise (ValueError "Invalid RFC 2822 date format");
     Raise (ValueError "day is out of range for month"); Raise OverflowError;
     Ok "1702683600000"].
Proof. vm_compute. reflexivity. Qed.

Example main_own_domain :
  main (fun s => Ok s)
    [mk_row (Some "Inbox,Important") (Some "Fri, 15 Dec 2023 16:40:42 +0000")
       (Some "X <x@insidemaps.com>") (Some "y@external.com, Z <z@insidemaps.com>")
       None (Some "Hello") None;
     mk_row (Some "Sent") (Some "Fri, 15 Dec 2023 16:40:42 +0000")
       (Some "x@insidemaps.com") (Some "z@insidemaps.com")
       None (Some "Hello") None]
  = Ok [mk_assigned
          (mk_row (Some "Incoming") (Some "1702658442000") (Some "x@insidemaps.com")
             (Some "y@external.com;z@insidemaps.com") None (Some "Hello") None)
          (Some "y@external.com")].
Proof. vm_compute. reflexivity. Qed.
